(** * make_dataset.py: sentence/question/answer extraction and corpus merging

    A shallow embedding of [src/make_dataset.py]: the SQuAD and NewsQA
    extractors ([SquadPreprocessor.split_data], [NewsQAPreprocessor.split_data]),
    the merger [concatenate_data] and the merge stage of [__main__].

    Conventions.
    - A Python [str] is a [string]; a character is an [ascii], read as a code
      point below 256.
    - A Python [int] is a [Z]; list positions and lengths are [nat].
    - An exception is a value of [exn]; code that may raise returns a [result].
    - An output file of an extractor is the list of the strings written to
      it, in order; each ends with a newline.  For the merger a file is the
      list of its lines, as [for line in f] yields them.
    - [utils.clean_text], [utils.word_tokenize], [utils.sent_tokenize] and
      [utils.convert_idx] and the directories of [config] are not part of the
      sources at hand: they are section variables. *)

From Stdlib Require Import ZArith QArith Ascii Permutation Sorted Lia.
From Stdlib Require OrderedTypeEx.
From stdpp Require Import gmap strings list sorting.

Local Open Scope Z_scope.

(** ** Exceptions *)

Inductive exn : Type :=
| Exception
| IndexError
| UnboundLocalError
| KeyError
| FileNotFoundError.

Inductive result (A : Type) : Type :=
| Ok (a : A)
| Raise (e : exn).

Arguments Ok {A} a.
Arguments Raise {A} e.

(** [for x in l: body], the state [st] threaded through the iterations; an
    exception ends the loop and leaves the state as it is. *)
Fixpoint for_each {S A : Type} (body : A -> S -> S * result unit)
    (l : list A) (st : S) : S * result unit :=
  match l with
  | [] => (st, Ok tt)
  | x :: rest =>
      match body x st with
      | (st', Ok _) => for_each body rest st'
      | (st', Raise e) => (st', Raise e)
      end
  end.

(** ** Python string primitives *)

Module Py.

Definition chars (s : string) : list ascii := String.list_ascii_of_string s.
Definition str (l : list ascii) : string := String.string_of_list_ascii l.

Definition len (s : string) : Z := Z.of_nat (String.length s).

(** [str.isspace] on a single character (code points below 256). *)
Definition isspace (c : ascii) : bool :=
  let n := N_of_ascii c in
  ((9 <=? n) && (n <=? 13) || (28 <=? n) && (n <=? 32)
   || (n =? 133) || (n =? 160))%N.

Fixpoint lstrip_by (p : ascii -> bool) (l : list ascii) : list ascii :=
  match l with
  | [] => []
  | c :: l' => if p c then lstrip_by p l' else l
  end.

Definition strip_by (p : ascii -> bool) (s : string) : string :=
  str (rev (lstrip_by p (rev (lstrip_by p (chars s))))).

(** [s.strip()] *)
Definition strip (s : string) : string := strip_by isspace s.

(** [s.strip(cs)] *)
Definition strip_chars (cs : string) (s : string) : string :=
  strip_by (fun c => bool_decide (c ∈ chars cs)) s.

(** [sep.join(l)] *)
Fixpoint join (sep : string) (l : list string) : string :=
  match l with
  | [] => ""
  | [x] => x
  | x :: l' => x +:+ sep +:+ join sep l'
  end.

Fixpoint find_from (sub s : string) (i : Z) : Z :=
  if String.prefix sub s then i
  else match s with
       | EmptyString => -1
       | String _ s' => find_from sub s' (i + 1)
       end.

(** [s.find(sub)]: the lowest index where [sub] occurs in [s], or -1. *)
Definition find (s sub : string) : Z := find_from sub s 0.

Fixpoint drop (n : nat) (s : string) : string :=
  match n, s with
  | O, _ => s
  | S n', String _ s' => drop n' s'
  | S _, EmptyString => EmptyString
  end.

Fixpoint take (n : nat) (s : string) : string :=
  match n, s with
  | S n', String c s' => String c (take n' s')
  | _, _ => EmptyString
  end.

(** Position denoted by a slice bound [i] in a sequence of length [n]. *)
Definition bound (n i : Z) : Z :=
  if i <? 0 then Z.max 0 (i + n) else Z.min i n.

(** [s[lo:hi]] *)
Definition slice (s : string) (lo hi : Z) : string :=
  let lo' := bound (len s) lo in
  let hi' := bound (len s) hi in
  take (Z.to_nat (hi' - lo')) (drop (Z.to_nat lo') s).

(** [s[lo:]] *)
Definition slice_from (s : string) (lo : Z) : string :=
  drop (Z.to_nat (bound (len s) lo)) s.

(** [s[-1]] *)
Definition last_char (s : string) : result ascii :=
  match rev (chars s) with
  | [] => Raise IndexError
  | c :: _ => Ok c
  end.

Fixpoint until_char (c : ascii) (l : list ascii) : list ascii :=
  match l with
  | [] => []
  | x :: l' => if Ascii.eqb x c then [] else x :: until_char c l'
  end.

(** [s.split(c)[0]] for a one-character separator [c]. *)
Definition split_head (c : ascii) (s : string) : string :=
  str (until_char c (chars s)).

(** [os.path.join(a, b)] on a POSIX system. *)
Definition path_join2 (a b : string) : string :=
  if String.prefix "/" b then b
  else match rev (chars a) with
       | [] => b
       | c :: _ => if Ascii.eqb c "/" then a +:+ b else a +:+ "/" +:+ b
       end.

(** [os.path.join(a, b, c)] *)
Definition path_join (a b c : string) : string :=
  path_join2 (path_join2 a b) c.

End Py.

(** ** Sentence boundaries and the answer-to-sentence scan

    Both extractors contain the same two loops (lines 83-88 and 107-111 of
    the SQuAD extractor, lines 162-167 and 175-179 of the NewsQA one). *)

(** A token span: (start, end) character offsets. *)
Abbreviation span := (Z * Z)%type.

(** [[
      num_tokens = 0
      sent_starts = []
      for sentence in context_sentences:
          first_sentence_span = spans[num_tokens][0]
          num_tokens += len(sentence)
          sent_starts.append(first_sentence_span)
    ]] *)
Fixpoint sent_starts_loop (spans : list span)
    (context_sentences : list (list string))
    (num_tokens : nat) (sent_starts : list Z) : result (list Z) :=
  match context_sentences with
  | [] => Ok sent_starts
  | sentence :: rest =>
      match spans !! num_tokens with
      | None => Raise IndexError
      | Some first_sentence_span =>
          sent_starts_loop spans rest
            (num_tokens + length sentence)%nat
            (sent_starts ++ [first_sentence_span.1])
      end
  end.

Definition compute_sent_starts (spans : list span)
    (context_sentences : list (list string)) : result (list Z) :=
  sent_starts_loop spans context_sentences 0%nat [].

(** The working variable [sentence_tokens] is [None] while it is unbound.

    [[
      for idx, start in enumerate(sent_starts):
          if answer_start >= start:
              sentence_tokens = context_sentences[idx]
          else:
              break
    ]] *)
Fixpoint scan_sentences (answer_start : Z)
    (context_sentences : list (list string)) (idx : nat)
    (sent_starts : list Z) (sentence_tokens : option (list string))
    : result (option (list string)) :=
  match sent_starts with
  | [] => Ok sentence_tokens
  | start :: rest =>
      if answer_start >=? start then
        match context_sentences !! idx with
        | None => Raise IndexError
        | Some s =>
            scan_sentences answer_start context_sentences (S idx) rest (Some s)
        end
      else Ok sentence_tokens
  end.

(** [[
      if not sentence_tokens:
          print("Sentence cannot be found")
          raise Exception()
    ]]
    Reading the variable while it is unbound raises [UnboundLocalError]. *)
Definition check_found (sentence_tokens : option (list string))
    : result (list string) :=
  match sentence_tokens with
  | None => Raise UnboundLocalError
  | Some [] => Raise Exception
  | Some (t :: ts) => Ok (t :: ts)
  end.

(** The resolver of the SQuAD extractor (lines 106-114): the variable is
    reset to the empty list before every scan. *)
Definition resolve (answer_start : Z) (sent_starts : list Z)
    (context_sentences : list (list string)) : result (list string) :=
  match scan_sentences answer_start context_sentences 0%nat sent_starts
          (Some []) with
  | Raise e => Raise e
  | Ok v => check_found v
  end.

(** ** Output files of an extractor *)

Record files : Type := mk_files {
  sentence_file : list string;
  question_file : list string;
  answer_file : list string
}.

Definition no_files : files := mk_files [] [] [].

Definition newline : string := String "010"%char EmptyString.

(** The three [write] calls that end the treatment of a question. *)
Definition write_triple (f : files) (sent q ans : string) : files :=
  {| sentence_file := sentence_file f ++ [sent +:+ newline];
     question_file := question_file f ++ [q +:+ newline];
     answer_file := answer_file f ++ [ans +:+ newline] |}.

(** ** The SQuAD extractor *)

Module Squad.

Record answer : Type := mk_answer {
  text : string;
  answer_start : Z
}.

Record qa : Type := mk_qa {
  question : string;
  answers : list answer
}.

Record paragraph : Type := mk_paragraph {
  context : string;
  qas : list qa
}.

Record article : Type := mk_article {
  paragraphs : list paragraph
}.

Section Extractor.

Variable clean_text : string -> string.
Variable word_tokenize : string -> list string.
Variable sent_tokenize : string -> list (list string).
Variable convert_idx : string -> list string -> result (list span).

(** The loop [for answer_id in range(answer_ids)] (lines 101-114),
    carrying the variables [sentence_tokens] and [answer_tokens].  What
    they hold before the first iteration is never read: the loop is only
    entered with at least one answer to visit. *)
Fixpoint answers_loop (sent_starts : list Z)
    (context_sentences : list (list string)) (answers : list answer)
    (answer_ids : list nat) (vars : list string * list string)
    : result (list string * list string) :=
  match answer_ids with
  | [] => Ok vars
  | answer_id :: rest =>
      match answers !! answer_id with
      | None => Raise IndexError
      | Some a =>
          let answer := clean_text (text a) in
          let answer_tokens := word_tokenize answer in
          match resolve (answer_start a) sent_starts context_sentences with
          | Raise e => Raise e
          | Ok sentence_tokens =>
              answers_loop sent_starts context_sentences answers rest
                (sentence_tokens, answer_tokens)
          end
      end
  end.

(** [answer_ids] of lines 95-99. *)
Definition answer_count (sub_dir : string) (q : qa) : nat :=
  if String.eqb sub_dir "train" then
    match answers q with [] => 0%nat | _ :: _ => 1%nat end
  else length (answers q).

(** The body of the loop [for qa in qas] (lines 92-119). *)
Definition split_qa (sub_dir : string) (sent_starts : list Z)
    (context_sentences : list (list string)) (q : qa) (f : files)
    : files * result unit :=
  let question := clean_text (question q) in
  let question_tokens := word_tokenize question in
  let answer_ids := answer_count sub_dir q in
  match answer_ids with
  | O => (f, Ok tt)
  | S _ =>
      match answers_loop sent_starts context_sentences (answers q)
              (seq 0 answer_ids) ([], []) with
      | Raise e => (f, Raise e)
      | Ok (sentence_tokens, answer_tokens) =>
          (write_triple f (Py.join " " sentence_tokens)
                          (Py.join " " question_tokens)
                          (Py.join " " answer_tokens), Ok tt)
      end
  end.

Definition split_qas (sub_dir : string) (sent_starts : list Z)
    (context_sentences : list (list string)) (l : list qa) (f : files)
    : files * result unit :=
  for_each (split_qa sub_dir sent_starts context_sentences) l f.

(** The body of the loop [for paragraph in list_paragraphs]. *)
Definition split_paragraph (sub_dir : string) (p : paragraph) (f : files)
    : files * result unit :=
  let context := clean_text (context p) in
  let context_tokens := word_tokenize context in
  let context_sentences := sent_tokenize context in
  match convert_idx context context_tokens with
  | Raise e => (f, Raise e)
  | Ok spans =>
      match compute_sent_starts spans context_sentences with
      | Raise e => (f, Raise e)
      | Ok sent_starts =>
          split_qas sub_dir sent_starts context_sentences (qas p) f
      end
  end.

Definition split_paragraphs (sub_dir : string) (l : list paragraph)
    (f : files) : files * result unit :=
  for_each (split_paragraph sub_dir) l f.

(** The loop [for article_id in range(len(self.data['data']))]. *)
Definition split_articles (sub_dir : string) (l : list article) (f : files)
    : files * result unit :=
  for_each (fun a => split_paragraphs sub_dir (paragraphs a)) l f.

(** [SquadPreprocessor.split_data]: the contents of the three files of
    the split named by [filename], and whether the run raised. *)
Definition split_data (filename : string) (data : list article)
    : files * result unit :=
  let sub_dir := Py.split_head "-" filename in
  split_articles sub_dir data no_files.

End Extractor.

(** The answer resolves to a sentence of the paragraph. *)
Definition resolves (sent_starts : list Z)
    (context_sentences : list (list string)) (a : answer) : Prop :=
  exists s, resolve (answer_start a) sent_starts context_sentences = Ok s.

(** Resolving the answer raises. *)
Definition fails (sent_starts : list Z)
    (context_sentences : list (list string)) (a : answer) : Prop :=
  exists e, resolve (answer_start a) sent_starts context_sentences = Raise e.

End Squad.

(** ** The NewsQA extractor *)

Module NewsQA.

(** A question of the combined NewsQA file.  [isQuestionBad] is [None]
    when the key is absent; [consensus] is the span [(s, e)] of the
    consensus answer, [None] when the consensus has no ["s"] key. *)
Record question : Type := mk_question {
  isQuestionBad : option Q;
  consensus : option (Z * Z);
  q : string
}.

Record article : Type := mk_article {
  type : string;
  text : string;
  questions : list question
}.

(** The variables of [split_data] that outlive one question: the files
    being written and [sentence_tokens], which the function never resets. *)
Record state : Type := mk_state {
  out : files;
  sentence_tokens : option (list string)
}.

(** [question.get("isQuestionBad") == 0 and question["consensus"].get("s")] *)
Definition usable (qn : question) : bool :=
  match isQuestionBad qn with
  | None => false
  | Some b => Qeq_bool b 0
  end
  &&
  match consensus qn with
  | None => false
  | Some (s, _) => negb (s =? 0)
  end.

(** Line 184: the tokens of the sentence, stripped, the empty ones dropped,
    joined by spaces. *)
Definition strip_token (token : string) : string :=
  Py.strip (Py.strip_chars newline token).

Definition join_sentence (sentence_tokens : list string) : string :=
  Py.join " "
    (List.map strip_token
       (List.filter (fun token => negb (String.eqb (strip_token token) ""))
          sentence_tokens)).

Definition cnn : string := "( CNN ) -- ".

(** Lines 185-187. *)
Definition strip_cnn (sent : string) : string :=
  let index := Py.find sent cnn in
  if index >? -1 then Py.slice_from sent (index + Py.len cnn) else sent.

Section Extractor.

Variable word_tokenize : string -> list string.
Variable sent_tokenize : string -> list (list string).
Variable convert_idx : string -> list string -> result (list span).

(** The body of the loop [for question in article["questions"]]
    (lines 156-192). *)
Definition split_question (a : article) (qn : question) (st : state)
    : state * result unit :=
  if usable qn then
    let context := text a in
    let context_tokens := word_tokenize context in
    let context_sentences := sent_tokenize context in
    match convert_idx context context_tokens with
    | Raise e => (st, Raise e)
    | Ok spans =>
        match compute_sent_starts spans context_sentences with
        | Raise e => (st, Raise e)
        | Ok sent_starts =>
            let q := Py.strip (q qn) in
            match Py.last_char q with
            | Raise e => (st, Raise e)
            | Ok c =>
                if negb (Ascii.eqb c "?") then (st, Ok tt)
                else
                  match consensus qn with
                  | None => (st, Raise KeyError)
                  | Some (s, e) =>
                      let answer_start := s in
                      let answer :=
                        Py.strip_chars newline
                          (Py.strip_chars ".| " (Py.slice context s e)) in
                      match scan_sentences answer_start context_sentences
                              0%nat sent_starts (sentence_tokens st) with
                      | Raise e => (st, Raise e)
                      | Ok v =>
                          let st' := mk_state (out st) v in
                          match check_found v with
                          | Raise e => (st', Raise e)
                          | Ok sentence_tokens =>
                              let sent :=
                                strip_cnn (join_sentence sentence_tokens) in
                              (mk_state (write_triple (out st) sent q answer)
                                        v, Ok tt)
                          end
                      end
                  end
            end
        end
    end
  else (st, Ok tt).

Definition split_questions (a : article) (l : list question) (st : state)
    : state * result unit :=
  for_each (split_question a) l st.

(** The body of the loop [for article in self.data["data"]]. *)
Definition split_article (sub_dir : string) (a : article) (st : state)
    : state * result unit :=
  if negb (String.eqb (type a) sub_dir) then (st, Ok tt)
  else split_questions a (questions a) st.

Definition split_articles (sub_dir : string) (l : list article) (st : state)
    : state * result unit :=
  for_each (split_article sub_dir) l st.

(** The loop [for sub_dir in envs]: the files of every split opened so
    far, with the name of the split. *)
Fixpoint split_envs (envs : list string) (data : list article)
    (sentence_tokens : option (list string))
    : list (string * files) * result unit :=
  match envs with
  | [] => ([], Ok tt)
  | sub_dir :: rest =>
      match split_articles sub_dir data
              (mk_state no_files sentence_tokens) with
      | (st, Raise e) => ([(sub_dir, out st)], Raise e)
      | (st, Ok _) =>
          let (written, r) := split_envs rest data (NewsQA.sentence_tokens st) in
          ((sub_dir, out st) :: written, r)
      end
  end.

(** [NewsQAPreprocessor.split_data] *)
Definition split_data (data : list article)
    : list (string * files) * result unit :=
  split_envs ["train"; "dev"] data None.

(** *** Vocabulary of the properties of the extractor *)

(** Line 173: the text of the answer. *)
Definition answer_text (a : article) (s e : Z) : string :=
  Py.strip_chars newline (Py.strip_chars ".| " (Py.slice (text a) s e)).

(** The question passes the filters of lines 156 and 170 in an
    article whose sentence boundaries are [sent_starts], so that its
    answer span [(s, e)] is handed to the scan of line 175. *)
Definition reaches_scan (a : article) (qn : question) (s e : Z)
    (sent_starts : list Z) : Prop :=
  usable qn = true
  /\ (exists spans,
        convert_idx (text a) (word_tokenize (text a)) = Ok spans
        /\ compute_sent_starts spans (sent_tokenize (text a))
           = Ok sent_starts)
  /\ Py.last_char (Py.strip (q qn)) = Ok "?"%char
  /\ consensus qn = Some (s, e).

(** The sentence that the scan of the question assigns to the working
    variable, if the question reaches the scan and the scan assigns one. *)
Definition resolved_sentence (a : article) (qn : question)
    : option (list string) :=
  if usable qn then
    match convert_idx (text a) (word_tokenize (text a)) with
    | Raise _ => None
    | Ok spans =>
        match compute_sent_starts spans (sent_tokenize (text a)) with
        | Raise _ => None
        | Ok sent_starts =>
            match Py.last_char (Py.strip (q qn)), consensus qn with
            | Ok c, Some (s, _) =>
                if Ascii.eqb c "?" then
                  match scan_sentences s (sent_tokenize (text a)) 0%nat
                          sent_starts None with
                  | Ok v => v
                  | Raise _ => None
                  end
                else None
            | _, _ => None
            end
        end
    end
  else None.

(** The sentence resolved by the latest question of [trace] that
    resolved one. *)
Fixpoint last_resolved (trace : list (article * question))
    (v : option (list string)) : option (list string) :=
  match trace with
  | [] => v
  | (a, qn) :: rest =>
      last_resolved rest
        (match resolved_sentence a qn with Some s => Some s | None => v end)
  end.

(** [run trace st]: a run of [split_data] that has treated the
    questions of [trace], in this order and without an exception, is in
    state [st]. *)
Inductive run : list (article * question) -> state -> Prop :=
| run_start : run [] (mk_state no_files None)
| run_question trace st a qn st' :
    run trace st ->
    split_question a qn st = (st', Ok tt) ->
    run (trace ++ [(a, qn)]) st'
| run_open trace st :
    run trace st ->
    run trace (mk_state no_files (sentence_tokens st)).

(** The questions that the loop over the articles treats for a split. *)
Definition questions_of (sub_dir : string) (data : list article)
    : list (article * question) :=
  flat_map (fun a =>
              if String.eqb (type a) sub_dir
              then List.map (pair a) (questions a) else [])
           data.

End Extractor.

End NewsQA.

(** ** The corpus merger *)

Module Merge.

(** A line of the merged file with the key drawn for it.  A value of
    [random.random()] is [m / 2^53] for an integer [0 <= m < 2^53]; the
    key is kept as [m]. *)
Definition keyed : Type := Z * string.

(** The order of Python tuples [(float, str)]: by key, then by line. *)
Definition keyed_leb (x y : keyed) : bool :=
  (x.1 <? y.1) || ((x.1 =? y.1) && String.leb x.2 y.2).

Definition keyed_le (x y : keyed) : Prop := keyed_leb x y = true.

#[global] Instance keyed_le_dec : RelDecision keyed_le.
Proof. intros x y. unfold keyed_le. apply _. Defined.

(** The file system, as far as the merger sees it: the lines of every
    file that exists. *)
Record world : Type := mk_world {
  fs : gmap string (list string);
  drawn : nat
}.

Section Merger.

(** [random n] is the key of the [n]-th call of [random.random()] in
    the process. *)
Variable random : nat -> Z.

(** Lines 200-203: the files named by [filenames] are read one after
    the other and their lines appended to [acc], the lines of the output. *)
Fixpoint read_all (files : gmap string (list string))
    (filenames : list string) (acc : list string)
    : list string * result unit :=
  match filenames with
  | [] => (acc, Ok tt)
  | fname :: rest =>
      match files !! fname with
      | None => (acc, Raise FileNotFoundError)
      | Some lines => read_all files rest (acc ++ lines)
      end
  end.

(** Line 205: one key is drawn for every line, in the order of the lines. *)
Fixpoint draw_keys (n : nat) (lines : list string) : list keyed :=
  match lines with
  | [] => []
  | line :: rest => (random n, line) :: draw_keys (S n) rest
  end.

(** Lines 204-209 on the lines of the output file. *)
Definition shuffle (n : nat) (lines : list string) : list string :=
  (merge_sort keyed_le (draw_keys n lines)).*2.

(** [concatenate_data].  The output is opened (and so emptied) before
    the inputs are read; the inputs are read as they stand at that
    moment, which is what happens when [out_filename] is not one of
    [filenames]. *)
Definition concatenate_data (filenames : list string)
    (out_filename : string) (w : world) : world * result unit :=
  let opened := <[out_filename := []]> (fs w) in
  match read_all opened filenames [] with
  | (written, Raise e) =>
      (mk_world (<[out_filename := written]> opened) (drawn w), Raise e)
  | (written, Ok _) =>
      (mk_world (<[out_filename := shuffle (drawn w) written]> opened)
                (drawn w + length written)%nat, Ok tt)
  end.

Variable squad_data_dir : string.
Variable newsqa_data_dir : string.
Variable out_dir : string.

(** Sequencing of two steps: an exception ends the run. *)
Definition and_then (step : world -> world * result unit)
    (next : world -> world * result unit) (w : world)
    : world * result unit :=
  match step w with
  | (w', Ok _) => next w'
  | (w', Raise e) => (w', Raise e)
  end.

(** The merge stage of [__main__] (lines 226-240): its four calls of
    [concatenate_data], in order. *)
Definition merge_stage : world -> world * result unit :=
  and_then
    (concatenate_data
       [Py.path_join squad_data_dir "train" "train.sentence";
        Py.path_join newsqa_data_dir "train" "train.sentence"]
       (Py.path_join out_dir "train" "train.sentence"))
 (and_then
    (concatenate_data
       [Py.path_join squad_data_dir "train" "train.question";
        Py.path_join newsqa_data_dir "train" "train.question"]
       (Py.path_join out_dir "train" "train.question"))
 (and_then
    (concatenate_data
       [Py.path_join squad_data_dir "dev" "dev.sentence";
        Py.path_join newsqa_data_dir "dev" "dev.sentence"]
       (Py.path_join out_dir "dev" "dev.sentence"))
    (concatenate_data
       [Py.path_join squad_data_dir "dev" "dev.question";
        Py.path_join newsqa_data_dir "dev" "dev.question"]
       (Py.path_join out_dir "dev" "dev.question")))).

(** The paths that the merge stage reads and the paths that it writes. *)
Definition merge_inputs : list string :=
  [Py.path_join squad_data_dir "train" "train.sentence";
   Py.path_join newsqa_data_dir "train" "train.sentence";
   Py.path_join squad_data_dir "train" "train.question";
   Py.path_join newsqa_data_dir "train" "train.question";
   Py.path_join squad_data_dir "dev" "dev.sentence";
   Py.path_join newsqa_data_dir "dev" "dev.sentence";
   Py.path_join squad_data_dir "dev" "dev.question";
   Py.path_join newsqa_data_dir "dev" "dev.question"].

Definition merge_outputs : list string :=
  [Py.path_join out_dir "train" "train.sentence";
   Py.path_join out_dir "train" "train.question";
   Py.path_join out_dir "dev" "dev.sentence";
   Py.path_join out_dir "dev" "dev.question"].

(** [merged w w' from_squad from_newsqa out]: the file [out] of [w']
    holds the lines that the two corpus files had in [w], in some order. *)
Definition merged (w w' : world) (from_squad from_newsqa out : string)
    : Prop :=
  exists a b l,
    fs w !! from_squad = Some a /\ fs w !! from_newsqa = Some b
    /\ fs w' !! out = Some l /\ l ≡ₚ a ++ b.

End Merger.

End Merge.

(** ** utils.convert_idx *)

Module Utils.

(** Modelled from the spec: [utils.convert_idx] is not among the sources;
    the Span Indexer keeps a cursor into the text, searches each token
    from the cursor on, records [(start, start + len(token))], moves the
    cursor to the end of the token, and raises when a token cannot be
    found. *)
Fixpoint convert_idx_loop (text : string) (tokens : list string)
    (current : Z) (spans : list span) : result (list span) :=
  match tokens with
  | [] => Ok spans
  | token :: rest =>
      let i := Py.find (Py.slice_from text current) token in
      if i <? 0 then Raise Exception
      else
        let start := current + i in
        convert_idx_loop text rest (start + Py.len token)
          (spans ++ [(start, start + Py.len token)])
  end.

Definition convert_idx (text : string) (tokens : list string)
    : result (list span) :=
  convert_idx_loop text tokens 0 [].

End Utils.

(** ** Vocabulary of the properties *)

(** [i] is the greatest index whose sentence start is at most [a]. *)
Definition greatest_start_le (a : Z) (starts : list Z) (i : nat) : Prop :=
  (exists st, starts !! i = Some st /\ st <= a) /\
  (forall j st, (i < j)%nat -> starts !! j = Some st -> a < st).

(** [i] is where a scan in order stops: every start up to [i] is at most
    [a], and the start after [i], if there is one, exceeds [a]. *)
Definition scan_stops_at (a : Z) (starts : list Z) (i : nat) : Prop :=
  (i < length starts)%nat /\
  (forall j st, (j <= i)%nat -> starts !! j = Some st -> st <= a) /\
  (forall st, starts !! S i = Some st -> a < st).

Definition nondecreasing (starts : list Z) : Prop :=
  forall i j x y, (i <= j)%nat ->
    starts !! i = Some x -> starts !! j = Some y -> x <= y.

(** The TokenSpan invariant: the spans are ordered (every token starts
    after the start of the one before) and do not overlap (no token starts
    before the end of the one before). *)
Definition token_spans_ok (spans : list span) : Prop :=
  forall i sp sp',
    spans !! i = Some sp -> spans !! S i = Some sp' ->
    sp.1 < sp'.1 /\ sp.2 <= sp'.1.

(** [sub] occurs in [s] right after the prefix [pre]. *)
Definition occurs_at (sub s pre : string) : Prop :=
  exists post, s = pre +:+ sub +:+ post.

(** What [os.path.join] puts before the components that follow the
    directory [d]: [d] itself, with a separator unless it is empty or ends
    with one. *)
Definition dir_prefix (d : string) : string :=
  match rev (Py.chars d) with
  | [] => ""
  | c :: _ => if Ascii.eqb c "/" then d else d +:+ "/"
  end.

(** [x] is the start of a token at position [num_tokens] or later. *)
Definition starts_from (spans : list span) (num_tokens : nat) (x : Z) : Prop :=
  exists k sp, (num_tokens <= k)%nat /\ spans !! k = Some sp /\ x = sp.1.

(** The sentence groups are non-empty and partition the tokens, of which
    [spans] has one span each. *)
Definition sentences_partition (spans : list span)
    (context_sentences : list (list string)) : Prop :=
  Forall (fun sentence => sentence <> []) context_sentences /\
  length (concat context_sentences) = length spans.

(** Stand-ins for the tokenizers of [utils], to run the extractors on
    concrete texts: tokens are separated by white space, and a sentence
    ends with the token ["."]. *)
Module Toy.

Definition clean_text (text : string) : string := text.

Fixpoint words (cur : list ascii) (l : list ascii) : list string :=
  match l with
  | [] => match cur with [] => [] | _ => [Py.str (rev cur)] end
  | c :: l' =>
      if Py.isspace c then
        match cur with
        | [] => words [] l'
        | _ => Py.str (rev cur) :: words [] l'
        end
      else words (c :: cur) l'
  end.

Definition word_tokenize (text : string) : list string :=
  words [] (Py.chars text).

Fixpoint group (cur : list string) (tokens : list string)
    : list (list string) :=
  match tokens with
  | [] => match cur with [] => [] | _ => [rev cur] end
  | t :: rest =>
      if String.eqb t "." then rev (t :: cur) :: group [] rest
      else group (t :: cur) rest
  end.

Definition sent_tokenize (text : string) : list (list string) :=
  group [] (word_tokenize text).

End Toy.

(** A NewsQA article to run the extractor on.  The text begins with two
    spaces, so that its first sentence starts at offset 2; the answer span
    of [asks_sleep] starts at offset 1, before every sentence start. *)
Module Sample.

Definition story : string := "  Cats sleep . Dogs run .".

Definition asks_run : NewsQA.question :=
  NewsQA.mk_question (Some 0%Q) (Some (15, 19)) "Who runs ?".

Definition asks_sleep : NewsQA.question :=
  NewsQA.mk_question (Some 0%Q) (Some (1, 6)) "Who sleeps ?".

Definition article (questions : list NewsQA.question) : NewsQA.article :=
  NewsQA.mk_article "train" story questions.

(** The files of two corpora, extracted under ["squad"] and ["newsqa"]:
    each split of each corpus holds one example, the three files of the
    split aligned. *)
Definition corpora : gmap string (list string) :=
  list_to_map
    [("squad/train/train.sentence", ["Cats sleep ." +:+ newline]);
     ("squad/train/train.question", ["Who sleeps ?" +:+ newline]);
     ("squad/train/train.answer", ["Cats" +:+ newline]);
     ("newsqa/train/train.sentence", ["Dogs run ." +:+ newline]);
     ("newsqa/train/train.question", ["Who runs ?" +:+ newline]);
     ("newsqa/train/train.answer", ["Dogs" +:+ newline]);
     ("squad/dev/dev.sentence", ["Birds fly ." +:+ newline]);
     ("squad/dev/dev.question", ["Who flies ?" +:+ newline]);
     ("squad/dev/dev.answer", ["Birds" +:+ newline]);
     ("newsqa/dev/dev.sentence", ["Fish swim ." +:+ newline]);
     ("newsqa/dev/dev.question", ["Who swims ?" +:+ newline]);
     ("newsqa/dev/dev.answer", ["Fish" +:+ newline])].

Definition world : Merge.world := Merge.mk_world corpora 0.

(** Values of [random.random()]: 0.25, 0.75, 0.75, 0.25 and then 0.25
    and 0.75 in turn, as multiples of [2^-53]. *)
Definition random (n : nat) : Z :=
  nth n [2251799813685248; 6755399441055744;
         6755399441055744; 2251799813685248;
         2251799813685248; 6755399441055744;
         2251799813685248; 6755399441055744] 0.

End Sample.

(** ** Vocabulary of the properties of whole runs *)

(** The three files hold the same number of lines. *)
Definition aligned (f : files) : Prop :=
  length (sentence_file f) = length (question_file f)
  /\ length (question_file f) = length (answer_file f).

(** [f'] holds the lines of [f], in the same order, and then possibly more. *)
Definition files_extend (f f' : files) : Prop :=
  sentence_file f `prefix_of` sentence_file f'
  /\ question_file f `prefix_of` question_file f'
  /\ answer_file f `prefix_of` answer_file f'.

(** The question has at least one answer. *)
Definition answerable (q : Squad.qa) : bool :=
  match Squad.answers q with
  | [] => false
  | _ :: _ => true
  end.

(** All the questions of a SQuAD file, in the order of the loops. *)
Definition all_qas (data : list Squad.article) : list Squad.qa :=
  flat_map (fun a => flat_map Squad.qas (Squad.paragraphs a)) data.

(** The values that [num_tokens] takes at the head of the loop of lines
    85-88: the position, among the tokens, of the first token of every
    sentence. *)
Fixpoint first_token_offsets (num_tokens : nat)
    (context_sentences : list (list string)) : list nat :=
  match context_sentences with
  | [] => []
  | sentence :: rest =>
      num_tokens :: first_token_offsets (num_tokens + length sentence) rest
  end.

(** SQuAD data to run the extractor on: a paragraph of two sentences with
    three questions, one of them without an answer, and a paragraph whose
    only question has an answer that starts before the first sentence. *)
Module SquadSample.

Definition pets : Squad.paragraph :=
  Squad.mk_paragraph "Cats sleep . Dogs run ."
    [Squad.mk_qa "Who moves ?"
       [Squad.mk_answer "Cats" 0; Squad.mk_answer "Dogs" 13];
     Squad.mk_qa "Who flies ?" [];
     Squad.mk_qa "Who runs ?" [Squad.mk_answer "Dogs" 13]].

Definition broken : Squad.paragraph :=
  Squad.mk_paragraph " Birds fly ."
    [Squad.mk_qa "Who flies ?" [Squad.mk_answer "Birds" 0]].

Definition blank : Squad.paragraph :=
  Squad.mk_paragraph ""
    [Squad.mk_qa "Who flies ?" [];
     Squad.mk_qa "Who swims ?" [Squad.mk_answer "Fish" 0]].

End SquadSample.

(** The line ends with a question mark and the newline. *)
Definition ends_with_question_mark (line : string) : Prop :=
  exists body, line = body +:+ "?" +:+ newline.

(** The question passes the filters of lines 156 and 170 of the NewsQA
    extractor. *)
Definition passes_filters (qn : NewsQA.question) : bool :=
  NewsQA.usable qn
  && match Py.last_char (Py.strip (NewsQA.q qn)) with
     | Ok c => Ascii.eqb c "?"
     | Raise _ => false
     end.

(** The article belongs to one of the two splits that are extracted. *)
Definition in_a_split (a : NewsQA.article) : bool :=
  String.eqb (NewsQA.type a) "train" || String.eqb (NewsQA.type a) "dev".

(** The first and the last character of [l], if any, do not satisfy [p]. *)
Definition trimmed (p : ascii -> bool) (l : list ascii) : Prop :=
  (forall c l', l = c :: l' -> p c = false)
  /\ (forall c l', rev l = c :: l' -> p c = false).

(** ** maybe_download_squad *)

Module Download.

(** The operations on the file system and on the network that the
    function asks for. *)
Inductive action : Type :=
| Makedirs (path : string)
| Urlretrieve (url filename : string)
| ZipExtractall (file path : string)
| TarExtractall (name path : string).

(** [s.endswith(suffix)] *)
Definition endswith (s suffix : string) : bool :=
  String.prefix (Py.str (rev (Py.chars suffix))) (Py.str (rev (Py.chars s))).

(** [maybe_download_squad] (lines 18-45): the operations it asks for, in
    order, when none of them raises.  [exists_] is [os.path.exists] at the
    time of the call; both tests are made before the first operation. *)
Definition maybe_download_squad (exists_ : string -> bool)
    (url filename out_dir : string) : list action :=
  let save_path := Py.path_join2 out_dir filename in
  (if negb (exists_ save_path) then
     (if negb (exists_ out_dir) then [Makedirs out_dir] else [])
     ++ [Urlretrieve (Py.path_join2 url filename) save_path]
   else [])
  ++ (if endswith filename ".zip" then [ZipExtractall filename out_dir]
      else if endswith filename ".tar.gz" || endswith filename ".tgz"
           then [TarExtractall filename out_dir]
           else []).

End Download.

(** * Properties *)

(** ** Sanity checks of the primitives *)

Example strip_ex : Py.strip "  is it ?
 " = "is it ?".
Proof. reflexivity. Qed.

Example strip_chars_ex : Py.strip_chars ".| " " the U.S. | ." = "the U.S".
Proof. reflexivity. Qed.

Example find_ex : Py.find "( CNN ) -- Officials" "( CNN ) -- " = 0.
Proof. reflexivity. Qed.

Example find_none_ex : Py.find "Officials" "( CNN ) -- " = -1.
Proof. reflexivity. Qed.

Example slice_ex : Py.slice "Cats sleep. Dogs run." 12 16 = "Dogs".
Proof. reflexivity. Qed.

Example split_head_ex : Py.split_head "-" "train-v2.0.json" = "train".
Proof. reflexivity. Qed.

Example path_join_ex : Py.path_join "data/squad" "train" "train.sentence"
                       = "data/squad/train/train.sentence".
Proof. reflexivity. Qed.

Example resolve_ex :
  resolve 15 [0; 12] [["Cats"; "sleep"; "."]; ["Dogs"; "run"; "."]]
  = Ok ["Dogs"; "run"; "."].
Proof. reflexivity. Qed.

Example sent_starts_ex :
  compute_sent_starts [(0, 4); (5, 10); (10, 11); (12, 16); (17, 20); (20, 21)]
    [["Cats"; "sleep"; "."]; ["Dogs"; "run"; "."]] = Ok [0; 12].
Proof. reflexivity. Qed.

Example convert_idx_ex :
  Utils.convert_idx "Cats sleep. Dogs run."
    ["Cats"; "sleep"; "."; "Dogs"; "run"; "."]
  = Ok [(0, 4); (5, 10); (10, 11); (12, 16); (17, 20); (20, 21)].
Proof. reflexivity. Qed.

(** ** Loops *)

(** A loop over [l1 ++ l2] is the loop over [l1] followed, unless it
    raised, by the loop over [l2]. *)
Lemma for_each_app {S A : Type} (body : A -> S -> S * result unit)
    (l1 l2 : list A) :
  forall st : S,
  for_each body (l1 ++ l2) st
  = match for_each body l1 st with
    | (st', Ok _) => for_each body l2 st'
    | (st', Raise e) => (st', Raise e)
    end.
Proof.
  induction l1 as [|x l1 IH]; intros st; simpl; [reflexivity|].
  destruct (body x st) as [st' [[]|e]]; [apply IH | reflexivity].
Qed.

(** An exception raised by one element ends the loop: the elements after
    it are not visited. *)
Lemma for_each_raise {S A : Type} (body : A -> S -> S * result unit)
    (l1 l2 : list A) (x : A) (st st1 st2 : S) (e : exn) :
  for_each body l1 st = (st1, Ok tt) ->
  body x st1 = (st2, Raise e) ->
  for_each body (l1 ++ x :: l2) st = (st2, Raise e).
Proof.
  intros H1 Hx. rewrite for_each_app, H1. simpl. rewrite Hx. reflexivity.
Qed.

(** ** The answer-to-sentence scan *)

Section Scan.

Variable a : Z.
Variable sents : list (list string).

(** A scan that meets no start at most [a] leaves the variable as it was. *)
Lemma scan_sentences_untouched (starts : list Z) (idx : nat)
    (v : option (list string)) :
  (forall st, st ∈ starts -> a < st) ->
  scan_sentences a sents idx starts v = Ok v.
Proof.
  destruct starts as [|st rest]; simpl; [reflexivity|].
  intros H. assert (a < st) by (apply H; left).
  destruct (Z.geb_spec a st); [lia | reflexivity].
Qed.

(** A scan stops at the last index of the initial run of starts at most
    [a], and leaves the sentence of that index in the variable. *)
Lemma scan_sentences_stops (starts : list Z) :
  forall (idx : nat) (v : option (list string)) (i : nat) (s : list string),
  scan_stops_at a starts i ->
  sents !! (idx + i)%nat = Some s ->
  scan_sentences a sents idx starts v = Ok (Some s).
Proof.
  induction starts as [|st rest IH]; intros idx v i s (Hlen & Hle & Hnext) Hs.
  - simpl in Hlen. lia.
  - simpl. assert (st <= a) by (apply (Hle 0%nat); [lia | reflexivity]).
    destruct (Z.geb_spec a st); [|lia].
    destruct i as [|i].
    + rewrite Nat.add_0_r in Hs. rewrite Hs.
      destruct rest as [|st' rest']; simpl; [reflexivity|].
      assert (a < st') by (apply Hnext; reflexivity).
      destruct (Z.geb_spec a st'); [lia | reflexivity].
    + assert (is_Some (sents !! idx)) as [s0 Hs0].
      { apply lookup_lt_is_Some. apply lookup_lt_Some in Hs. lia. }
      rewrite Hs0. apply (IH (S idx) (Some s0) i s).
      * repeat split.
        -- simpl in Hlen. lia.
        -- intros j x Hj Hx. apply (Hle (S j)); [lia | exact Hx].
        -- intros x Hx. apply Hnext. exact Hx.
      * replace (S idx + i)%nat with (idx + S i)%nat by lia. exact Hs.
Qed.

End Scan.

(** On non-decreasing starts, the index where the scan stops is the
    greatest index whose start is at most [a]. *)
Lemma greatest_start_le_scan_stops (a : Z) (starts : list Z) (i : nat) :
  nondecreasing starts ->
  greatest_start_le a starts i -> scan_stops_at a starts i.
Proof.
  intros Hmono [(st & Hst & Hle) Hgt]. repeat split.
  - eapply lookup_lt_Some; eauto.
  - intros j x Hj Hx. specialize (Hmono j i x st Hj Hx Hst). lia.
  - intros x Hx. apply (Hgt (S i)); [lia | exact Hx].
Qed.

Lemma scan_stops_greatest_start_le (a : Z) (starts : list Z) (i : nat) :
  nondecreasing starts ->
  scan_stops_at a starts i -> greatest_start_le a starts i.
Proof.
  intros Hmono (Hlen & Hle & Hnext). split.
  - destruct (lookup_lt_is_Some_2 starts i Hlen) as [st Hst].
    exists st. split; [exact Hst|]. apply (Hle i); [lia | exact Hst].
  - intros j x Hj Hx.
    assert (is_Some (starts !! S i)) as [y Hy].
    { apply lookup_lt_is_Some. apply lookup_lt_Some in Hx. lia. }
    specialize (Hnext y Hy).
    specialize (Hmono (S i) j y x ltac:(lia) Hy Hx). lia.
Qed.

(** Whenever the first start is at most [a], the scan stops at some index. *)
Lemma scan_stops_exists (a : Z) (starts : list Z) (st0 : Z) :
  starts !! 0%nat = Some st0 -> st0 <= a ->
  exists i, scan_stops_at a starts i.
Proof.
  revert st0. induction starts as [|st rest IH]; intros st0 H0 Hle; [done|].
  simpl in H0. injection H0 as ->.
  destruct rest as [|st' rest'].
  - exists 0%nat. repeat split; simpl; [lia | | done].
    intros [|j] x Hj Hx; simpl in Hx; [congruence | done].
  - destruct (Z_lt_le_dec a st') as [Hlt | Hge].
    + exists 0%nat. repeat split; simpl; [lia | | ].
      * intros [|j] x Hj Hx; [simpl in Hx; congruence | lia].
      * intros x Hx. congruence.
    + destruct (IH st' eq_refl Hge) as (i & Hlen & Hrun & Hnext).
      exists (S i). repeat split.
      * simpl in *. lia.
      * intros [|j] x Hj Hx; [simpl in Hx; congruence|].
        apply (Hrun j); [lia | exact Hx].
      * intros x Hx. apply Hnext. exact Hx.
Qed.

(** C2. The resolver selects the sentence at the greatest index [i] with
    [sent_starts[i] <= answer_start], the scan stopping at the first start
    that exceeds [answer_start]: the sentence of the index where the scan
    stops is left in the working variable, which for non-decreasing starts
    is the greatest index whose start is at most [answer_start]; the
    resolver returns that sentence (raising when it is empty).  When no
    start is at most [answer_start] the resolver raises (NotFound).  For
    [answer_start = 15] and starts [[0; 12]] the sentence of index 1 is
    selected. *)
Theorem resolve_selects_greatest_start_le (answer_start : Z)
    (sent_starts : list Z) (context_sentences : list (list string)) :
  length context_sentences = length sent_starts ->
  (forall i,
      scan_stops_at answer_start sent_starts i ->
      exists s,
        context_sentences !! i = Some s
        /\ scan_sentences answer_start context_sentences 0 sent_starts
             (Some []) = Ok (Some s)
        /\ resolve answer_start sent_starts context_sentences
           = check_found (Some s))
  /\ (nondecreasing sent_starts ->
      forall i,
        greatest_start_le answer_start sent_starts i ->
        exists s,
          context_sentences !! i = Some s
          /\ scan_sentences answer_start context_sentences 0 sent_starts
               (Some []) = Ok (Some s)
          /\ resolve answer_start sent_starts context_sentences
             = check_found (Some s))
  /\ ((forall st, st ∈ sent_starts -> answer_start < st) ->
      resolve answer_start sent_starts context_sentences = Raise Exception)
  /\ (forall s0 s1,
        scan_sentences 15 [s0; s1] 0 [0; 12] (Some []) = Ok (Some s1)
        /\ resolve 15 [0; 12] [s0; s1] = check_found (Some s1)).
Proof.
  intros Hlen.
  assert (forall i,
      scan_stops_at answer_start sent_starts i ->
      exists s,
        context_sentences !! i = Some s
        /\ scan_sentences answer_start context_sentences 0 sent_starts
             (Some []) = Ok (Some s)
        /\ resolve answer_start sent_starts context_sentences
           = check_found (Some s)) as Hstop.
  { intros i Hi.
    assert (is_Some (context_sentences !! i)) as [s Hs].
    { apply lookup_lt_is_Some. rewrite Hlen. apply Hi. }
    exists s. split; [exact Hs|].
    assert (scan_sentences answer_start context_sentences 0 sent_starts
              (Some []) = Ok (Some s)) as E
      by (eapply scan_sentences_stops; eauto).
    split; [exact E|]. unfold resolve. rewrite E. reflexivity. }
  split; [exact Hstop|]. split; [|split].
  - intros Hmono i Hi. apply (Hstop i).
    apply greatest_start_le_scan_stops; assumption.
  - intros Hnone. unfold resolve.
    rewrite scan_sentences_untouched by exact Hnone. reflexivity.
  - intros s0 s1. split; reflexivity.
Qed.

Lemma resolve_selects_greatest_start_le_witness :
  resolve 15 [0; 12] [["Cats"; "sleep"; "."]; ["Dogs"; "run"; "."]]
    = Ok ["Dogs"; "run"; "."]
  /\ resolve 11 [12; 20] [["Cats"; "sleep"; "."]; ["Dogs"; "run"; "."]]
    = Raise Exception.
Proof.
  pose proof (resolve_selects_greatest_start_le 15 [0; 12]
                [["Cats"; "sleep"; "."]; ["Dogs"; "run"; "."]]
                eq_refl) as (_ & Hsel & _ & _).
  pose proof (resolve_selects_greatest_start_le 11 [12; 20]
                [["Cats"; "sleep"; "."]; ["Dogs"; "run"; "."]]
                eq_refl) as (_ & _ & Hnone & _).
  split.
  - destruct (Hsel) with (i := 1%nat) as (s & Hs & _ & Hres).
    + intros [|[|[|i]]] [|[|[|j]]] x y Hij Hx Hy; simpl in *;
        try discriminate; try lia;
        injection Hx as <-; injection Hy as <-; lia.
    + split.
      * exists 12. split; [reflexivity | lia].
      * intros [|[|j]] st Hj Hst; simpl in *; try lia; discriminate.
    + injection Hs as <-. exact Hres.
  - apply Hnone. intros st Hst.
    apply elem_of_cons in Hst as [-> | Hst]; [lia|].
    apply elem_of_cons in Hst as [-> | Hst]; [lia|].
    inversion Hst.
Defined.

(** ** The SQuAD extractor *)

Section SquadQuestion.

Import Squad.

Variable clean_text : string -> string.
Variable word_tokenize : string -> list string.
Variable sent_starts : list Z.
Variable context_sentences : list (list string).

Local Abbreviation resolves := (Squad.resolves sent_starts context_sentences).
Local Abbreviation fails := (Squad.fails sent_starts context_sentences).

(** When every visited answer resolves, the loop ends with the variables
    of its last iteration. *)
Lemma answers_loop_last (answers : list answer) (a_last : answer)
    (s_last : list string) :
  forall (n k : nat) (vars : list string * list string),
  (forall i a, (k <= i < k + S n)%nat -> answers !! i = Some a ->
               resolves a) ->
  answers !! (k + n)%nat = Some a_last ->
  resolve (answer_start a_last) sent_starts context_sentences = Ok s_last ->
  answers_loop clean_text word_tokenize sent_starts context_sentences
    answers (seq k (S n)) vars
  = Ok (s_last, word_tokenize (clean_text (text a_last))).
Proof.
  induction n as [|n IH]; intros k vars Hall Hlast Hres.
  - rewrite Nat.add_0_r in Hlast. simpl. rewrite Hlast, Hres. reflexivity.
  - assert (is_Some (answers !! k)) as [a Ha].
    { apply lookup_lt_is_Some. apply lookup_lt_Some in Hlast. lia. }
    destruct (Hall k a ltac:(lia) Ha) as [s Hs].
    change (seq k (S (S n))) with (k :: seq (S k) (S n)).
    cbn [answers_loop]. rewrite Ha, Hs.
    apply IH.
    + intros i b Hi Hb. apply (Hall i b); [lia | exact Hb].
    + replace (S k + n)%nat with (k + S n)%nat by lia. exact Hlast.
    + exact Hres.
Qed.

(** An answer that does not resolve ends the loop with an exception. *)
Lemma answers_loop_raises (answers : list answer) :
  forall (n k : nat) (vars : list string * list string) (i : nat)
         (a : answer),
  (k + n <= length answers)%nat ->
  (k <= i < k + n)%nat -> answers !! i = Some a -> fails a ->
  exists e,
    answers_loop clean_text word_tokenize sent_starts context_sentences
      answers (seq k n) vars = Raise e.
Proof.
  induction n as [|n IH]; intros k vars i a Hlen Hi Ha Hfail; [lia|].
  assert (is_Some (answers !! k)) as [b Hb]
    by (apply lookup_lt_is_Some; lia).
  change (seq k (S n)) with (k :: seq (S k) n).
  cbn [answers_loop]. rewrite Hb.
  destruct (resolve (answer_start b) sent_starts context_sentences)
    as [s|e] eqn:Hres; [|eauto].
  destruct (decide (i = k)) as [-> | Hne].
  - destruct Hfail as [e He]. congruence.
  - apply (IH (S k) _ i a); [lia | lia | exact Ha | exact Hfail].
Qed.

(** C3. On a split other than train, a question with [n >= 1] answers has
    every answer visited (an answer that does not resolve aborts the run)
    and, when all resolve, exactly one triple written: the sentence and
    the answer are those of the last answer of the list. *)
Theorem dev_question_writes_last_answer (sub_dir : string) (q : qa)
    (f : files) (earlier : list answer) (a_last : answer) :
  sub_dir <> "train" ->
  answers q = earlier ++ [a_last] ->
  (Forall resolves (answers q) ->
   exists s_last,
     resolve (answer_start a_last) sent_starts context_sentences = Ok s_last
     /\ split_qa clean_text word_tokenize sub_dir sent_starts
          context_sentences q f
        = (write_triple f
             (Py.join " " s_last)
             (Py.join " " (word_tokenize (clean_text (question q))))
             (Py.join " " (word_tokenize (clean_text (text a_last)))),
           Ok tt))
  /\ (Exists fails (answers q) ->
      exists e,
        split_qa clean_text word_tokenize sub_dir sent_starts
          context_sentences q f = (f, Raise e)).
Proof.
  intros Hdev Hq.
  assert (answer_count sub_dir q = S (length earlier)) as Hcount.
  { unfold answer_count.
    destruct (String.eqb_spec sub_dir "train") as [E|_]; [done|].
    rewrite Hq, length_app. simpl. lia. }
  assert (answers q !! (0 + length earlier)%nat = Some a_last) as Hlast.
  { rewrite Hq. simpl. rewrite lookup_app_r by lia.
    rewrite Nat.sub_diag. reflexivity. }
  split.
  - intros Hall.
    assert (resolves a_last) as [s_last Hres].
    { rewrite Forall_forall in Hall. apply Hall. rewrite Hq.
      apply elem_of_app. right. left. }
    exists s_last. split; [exact Hres|].
    unfold split_qa. rewrite Hcount.
    rewrite (answers_loop_last (answers q) a_last s_last); auto.
    intros i a _ Ha. rewrite Forall_forall in Hall. apply Hall.
    eapply list_elem_of_lookup_2; eauto.
  - intros Hex. apply Exists_exists in Hex as (a & Ha & Hfail).
    apply list_elem_of_lookup_1 in Ha as [i Hi].
    assert (i < length (answers q))%nat by (eapply lookup_lt_Some; eauto).
    assert (length (answers q) = S (length earlier)) as Hn
      by (rewrite Hq, length_app; simpl; lia).
    destruct (answers_loop_raises (answers q) (S (length earlier)) 0
                ([], []) i a) as [e He]; [lia | lia | exact Hi | exact Hfail |].
    exists e. unfold split_qa. rewrite Hcount, He. reflexivity.
Qed.

(** C5. On the train split a question with answers has its first answer
    selected and one triple written from it (the run is aborted when that
    answer does not resolve); a question without answers writes nothing. *)
Theorem train_question_uses_first_answer (q : qa) (f : files) :
  (answers q = [] ->
   split_qa clean_text word_tokenize "train" sent_starts context_sentences
     q f = (f, Ok tt))
  /\ (forall a rest s,
        answers q = a :: rest ->
        resolve (answer_start a) sent_starts context_sentences = Ok s ->
        split_qa clean_text word_tokenize "train" sent_starts
          context_sentences q f
        = (write_triple f
             (Py.join " " s)
             (Py.join " " (word_tokenize (clean_text (question q))))
             (Py.join " " (word_tokenize (clean_text (text a)))),
           Ok tt))
  /\ (forall a rest e,
        answers q = a :: rest ->
        resolve (answer_start a) sent_starts context_sentences = Raise e ->
        split_qa clean_text word_tokenize "train" sent_starts
          context_sentences q f = (f, Raise e)).
Proof.
  unfold split_qa, answer_count. simpl String.eqb. cbv iota.
  split; [|split].
  - intros ->. reflexivity.
  - intros a rest s -> Hres. simpl. rewrite Hres. reflexivity.
  - intros a rest e -> Hres. simpl. rewrite Hres. reflexivity.
Qed.

End SquadQuestion.

Example toy_tokenize_ex :
  Toy.sent_tokenize "Cats sleep . Dogs run ."
  = [["Cats"; "sleep"; "."]; ["Dogs"; "run"; "."]]
  /\ Utils.convert_idx "Cats sleep . Dogs run ."
       (Toy.word_tokenize "Cats sleep . Dogs run .")
     = Ok [(0, 4); (5, 10); (11, 12); (13, 17); (18, 21); (22, 23)].
Proof. split; reflexivity. Qed.

(** The SQuAD extractor on a paragraph with one question that has two
    answers, in different sentences: the train split writes the first
    answer, the dev split the last. *)
Example squad_split_data_ex :
  let data :=
    [Squad.mk_article
       [Squad.mk_paragraph "Cats sleep . Dogs run ."
          [Squad.mk_qa "Who moves ?"
             [Squad.mk_answer "Cats" 0; Squad.mk_answer "Dogs" 13];
           Squad.mk_qa "Who flies ?" []]]] in
  Squad.split_data Toy.clean_text Toy.word_tokenize Toy.sent_tokenize
    Utils.convert_idx "train-v2.0.json" data
  = (mk_files ["Cats sleep ." +:+ newline] ["Who moves ?" +:+ newline]
              ["Cats" +:+ newline], Ok tt)
  /\ Squad.split_data Toy.clean_text Toy.word_tokenize Toy.sent_tokenize
       Utils.convert_idx "dev-v2.0.json" data
     = (mk_files ["Dogs run ." +:+ newline] ["Who moves ?" +:+ newline]
                 ["Dogs" +:+ newline], Ok tt).
Proof. split; reflexivity. Qed.

Lemma dev_question_writes_last_answer_witness :
  Squad.split_qa Toy.clean_text Toy.word_tokenize "dev" [0; 13]
    [["Cats"; "sleep"; "."]; ["Dogs"; "run"; "."]]
    (Squad.mk_qa "Who runs ?"
       [Squad.mk_answer "Cats" 0; Squad.mk_answer "Dogs" 13])
    no_files
  = (mk_files ["Dogs run ." +:+ newline] ["Who runs ?" +:+ newline]
              ["Dogs" +:+ newline], Ok tt).
Proof.
  destruct (dev_question_writes_last_answer Toy.clean_text Toy.word_tokenize
              [0; 13] [["Cats"; "sleep"; "."]; ["Dogs"; "run"; "."]] "dev"
              (Squad.mk_qa "Who runs ?"
                 [Squad.mk_answer "Cats" 0; Squad.mk_answer "Dogs" 13])
              no_files [Squad.mk_answer "Cats" 0] (Squad.mk_answer "Dogs" 13)
              ltac:(discriminate) eq_refl) as [Hall _].
  destruct Hall as (s_last & Hs & Hq).
  - repeat constructor; eexists; reflexivity.
  - injection Hs as <-. exact Hq.
Defined.

Lemma train_question_uses_first_answer_witness :
  Squad.split_qa Toy.clean_text Toy.word_tokenize "train" [0; 13]
    [["Cats"; "sleep"; "."]; ["Dogs"; "run"; "."]]
    (Squad.mk_qa "Who runs ?"
       [Squad.mk_answer "Cats" 0; Squad.mk_answer "Dogs" 13])
    no_files
  = (mk_files ["Cats sleep ." +:+ newline] ["Who runs ?" +:+ newline]
              ["Cats" +:+ newline], Ok tt)
  /\ Squad.split_qa Toy.clean_text Toy.word_tokenize "train" [0; 13]
       [["Cats"; "sleep"; "."]; ["Dogs"; "run"; "."]]
       (Squad.mk_qa "Who flies ?" []) no_files
     = (no_files, Ok tt).
Proof.
  split.
  - exact (proj1 (proj2 (train_question_uses_first_answer Toy.clean_text
                   Toy.word_tokenize [0; 13]
                   [["Cats"; "sleep"; "."]; ["Dogs"; "run"; "."]]
                   (Squad.mk_qa "Who runs ?"
                      [Squad.mk_answer "Cats" 0; Squad.mk_answer "Dogs" 13])
                   no_files))
             (Squad.mk_answer "Cats" 0) [Squad.mk_answer "Dogs" 13]
             ["Cats"; "sleep"; "."] eq_refl eq_refl).
  - exact (proj1 (train_question_uses_first_answer Toy.clean_text
                   Toy.word_tokenize [0; 13]
                   [["Cats"; "sleep"; "."]; ["Dogs"; "run"; "."]]
                   (Squad.mk_qa "Who flies ?" []) no_files) eq_refl).
Defined.

(** ** Sentence boundaries *)

Section SentenceBoundary.

Variable spans : list span.

(** The list being built only grows at its end. *)
Lemma sent_starts_loop_acc (context_sentences : list (list string)) :
  forall (num_tokens : nat) (acc : list Z),
  sent_starts_loop spans context_sentences num_tokens acc
  = match sent_starts_loop spans context_sentences num_tokens [] with
    | Ok l => Ok (acc ++ l)
    | Raise e => Raise e
    end.
Proof.
  induction context_sentences as [|s rest IH]; intros n acc; simpl.
  - rewrite app_nil_r. reflexivity.
  - destruct (spans !! n) as [sp|]; [|reflexivity].
    rewrite (IH _ (acc ++ [sp.1])), (IH _ [sp.1]).
    destruct (sent_starts_loop spans rest (n + length s) []);
      [rewrite <- app_assoc|]; reflexivity.
Qed.

Hypothesis spans_ok : token_spans_ok spans.

(** Ordered spans start later at later positions. *)
Lemma span_starts_increase (i j : nat) (a b : span) :
  (i < j)%nat -> spans !! i = Some a -> spans !! j = Some b -> a.1 < b.1.
Proof.
  intros Hij. revert b. induction Hij as [|j Hij IH]; intros b Ha Hb.
  - apply (spans_ok i a b Ha Hb).
  - assert (is_Some (spans !! j)) as [c Hc].
    { apply lookup_lt_is_Some. apply lookup_lt_Some in Hb. lia. }
    pose proof (IH c Ha Hc). pose proof (spans_ok j c b Hc Hb). lia.
Qed.

Lemma sent_starts_loop_spec (context_sentences : list (list string)) :
  forall num_tokens : nat,
  Forall (fun sentence => sentence <> []) context_sentences ->
  (num_tokens + length (concat context_sentences) <= length spans)%nat ->
  exists l,
    sent_starts_loop spans context_sentences num_tokens [] = Ok l
    /\ length l = length context_sentences
    /\ StronglySorted Z.lt l
    /\ Forall (starts_from spans num_tokens) l
    /\ (context_sentences <> [] ->
        exists sp, spans !! num_tokens = Some sp /\ l !! 0%nat = Some sp.1).
Proof.
  induction context_sentences as [|s rest IH]; intros n Hne Hlen.
  - exists []. repeat split; try constructor. congruence.
  - apply Forall_cons in Hne as [Hs Hrest].
    simpl in Hlen. rewrite length_app in Hlen.
    assert (0 < length s)%nat by (destruct s; [done | simpl; lia]).
    assert (is_Some (spans !! n)) as [sp Hsp]
      by (apply lookup_lt_is_Some; lia).
    destruct (IH (n + length s)%nat Hrest ltac:(lia))
      as (l & Hl & Hlenl & Hsorted & Hfrom & _).
    exists (sp.1 :: l). split.
    { cbn [sent_starts_loop]. rewrite Hsp.
      rewrite sent_starts_loop_acc, Hl. reflexivity. }
    repeat split.
    + simpl. lia.
    + constructor; [exact Hsorted|].
      eapply Forall_impl; [exact Hfrom|].
      intros x (k & sp' & Hk & Hsp' & ->).
      apply (span_starts_increase n k); [lia | exact Hsp | exact Hsp'].
    + constructor.
      * exists n, sp. repeat split; [lia | exact Hsp].
      * eapply Forall_impl; [exact Hfrom|].
        intros x (k & sp' & Hk & Hsp' & ->).
        exists k, sp'. repeat split; [lia | exact Hsp'].
    + intros _. exists sp. split; [exact Hsp | reflexivity].
Qed.

End SentenceBoundary.

(** C7, as the code has it.  For a non-empty passage whose spans satisfy
    the TokenSpan invariant and whose sentence groups are non-empty and
    partition the tokens, the sentence boundaries are computed without an
    exception, are strictly increasing, are as many as the sentences, and
    begin with the start offset of the first token of the passage. *)
Theorem sent_starts_increasing_from_first_token (spans : list span)
    (context_sentences : list (list string)) :
  token_spans_ok spans ->
  sentences_partition spans context_sentences ->
  context_sentences <> [] ->
  exists sent_starts first_span,
    compute_sent_starts spans context_sentences = Ok sent_starts
    /\ StronglySorted Z.lt sent_starts
    /\ length sent_starts = length context_sentences
    /\ spans !! 0%nat = Some first_span
    /\ sent_starts !! 0%nat = Some first_span.1.
Proof.
  intros Hok [Hne Hlen] Hsome.
  destruct (sent_starts_loop_spec spans Hok context_sentences 0 Hne
              ltac:(lia)) as (l & Hl & Hlenl & Hsorted & _ & Hfirst).
  destruct (Hfirst Hsome) as (sp & Hsp & Hhd).
  exists l, sp. repeat split; assumption.
Qed.

Lemma sent_starts_increasing_from_first_token_witness :
  exists sent_starts first_span,
    compute_sent_starts
      [(0, 4); (5, 10); (11, 12); (13, 17); (18, 21); (22, 23)]
      [["Cats"; "sleep"; "."]; ["Dogs"; "run"; "."]] = Ok sent_starts
    /\ StronglySorted Z.lt sent_starts
    /\ length sent_starts = 2%nat
    /\ [(0, 4); (5, 10); (11, 12); (13, 17); (18, 21); (22, 23)] !! 0%nat
       = Some first_span
    /\ sent_starts !! 0%nat = Some first_span.1.
Proof.
  apply (sent_starts_increasing_from_first_token
           [(0, 4); (5, 10); (11, 12); (13, 17); (18, 21); (22, 23)]
           [["Cats"; "sleep"; "."]; ["Dogs"; "run"; "."]]).
  - intros [|[|[|[|[|[|i]]]]]] sp sp' Hsp Hsp'; simpl in *;
      try discriminate; injection Hsp as <-; injection Hsp' as <-;
      simpl; lia.
  - split; [repeat constructor; discriminate | reflexivity].
  - discriminate.
Defined.

(** C7 as stated fails: a passage that begins with white space has its
    first token, and so its first sentence boundary, after offset 0.  Here
    the passage is [" Cats sleep ."]. *)
Lemma sent_starts_first_not_zero :
  ~ (forall (spans : list span) (context_sentences : list (list string)),
       token_spans_ok spans ->
       sentences_partition spans context_sentences ->
       context_sentences <> [] ->
       exists sent_starts,
         compute_sent_starts spans context_sentences = Ok sent_starts
         /\ StronglySorted Z.lt sent_starts
         /\ length sent_starts = length context_sentences
         /\ sent_starts !! 0%nat = Some 0).
Proof.
  intros H.
  destruct (H [(1, 5); (6, 11); (12, 13)] [["Cats"; "sleep"; "."]])
    as (starts & Hc & _ & _ & H0).
  - intros [|[|[|i]]] sp sp' Hsp Hsp'; simpl in *;
      try discriminate; injection Hsp as <-; injection Hsp' as <-;
      simpl; lia.
  - split; [repeat constructor; discriminate | reflexivity].
  - discriminate.
  - vm_compute in Hc. injection Hc as <-. discriminate H0.
Qed.

Example sent_starts_leading_space_ex :
  Utils.convert_idx " Cats sleep ." (Toy.word_tokenize " Cats sleep .")
  = Ok [(1, 5); (6, 11); (12, 13)]
  /\ compute_sent_starts [(1, 5); (6, 11); (12, 13)]
       (Toy.sent_tokenize " Cats sleep .") = Ok [1].
Proof. split; reflexivity. Qed.

(** ** The working variable of the scan *)

(** A scan either assigns the variable, and then its value at entry does
    not matter, or leaves it as it was. *)
Lemma scan_sentences_var (a : Z) (sents : list (list string))
    (starts : list Z) :
  forall (idx : nat) (v : option (list string)),
  scan_sentences a sents idx starts v
  = match scan_sentences a sents idx starts None with
    | Ok (Some s) => Ok (Some s)
    | Ok None => Ok v
    | Raise e => Raise e
    end.
Proof.
  induction starts as [|st rest IH]; intros idx v; simpl; [reflexivity|].
  destruct (a >=? st); [|reflexivity].
  destruct (sents !! idx) as [s|]; [|reflexivity].
  rewrite (IH (S idx) (Some s)).
  destruct (scan_sentences a sents (S idx) rest None) as [[s'|]|e];
    reflexivity.
Qed.

(** ** The NewsQA extractor *)

Section NewsQAQuestion.

Import NewsQA.

Variable word_tokenize : string -> list string.
Variable sent_tokenize : string -> list (list string).
Variable convert_idx : string -> list string -> result (list span).

Local Abbreviation split_question :=
  (NewsQA.split_question word_tokenize sent_tokenize convert_idx).
Local Abbreviation split_questions :=
  (NewsQA.split_questions word_tokenize sent_tokenize convert_idx).
Local Abbreviation reaches_scan :=
  (NewsQA.reaches_scan word_tokenize sent_tokenize convert_idx).
Local Abbreviation resolved_sentence :=
  (NewsQA.resolved_sentence word_tokenize sent_tokenize convert_idx).
Local Abbreviation last_resolved :=
  (NewsQA.last_resolved word_tokenize sent_tokenize convert_idx).
Local Abbreviation run :=
  (NewsQA.run word_tokenize sent_tokenize convert_idx).

(** A question that the filter of line 156 rejects is skipped. *)
Lemma split_question_unusable (a : article) (qn : question) (st : state) :
  usable qn = false -> split_question a qn st = (st, Ok tt).
Proof. intros H. unfold NewsQA.split_question. rewrite H. reflexivity. Qed.

(** What the extractor does with a question that reaches the scan. *)
Lemma split_question_scanned (a : article) (qn : question) (s e : Z)
    (sent_starts : list Z) (st : state) :
  reaches_scan a qn s e sent_starts ->
  split_question a qn st
  = match scan_sentences s (sent_tokenize (text a)) 0 sent_starts
            (sentence_tokens st) with
    | Raise ex => (st, Raise ex)
    | Ok v =>
        match check_found v with
        | Raise ex => (mk_state (out st) v, Raise ex)
        | Ok tokens =>
            (mk_state
               (write_triple (out st) (strip_cnn (join_sentence tokens))
                  (Py.strip (q qn)) (answer_text a s e)) v, Ok tt)
        end
    end.
Proof.
  intros (Hu & (spans & Hspans & Hstarts) & Hq & Hc).
  unfold NewsQA.split_question.
  rewrite Hu, Hspans, Hstarts, Hq, Hc. reflexivity.
Qed.

Lemma resolved_sentence_scanned (a : article) (qn : question) (s e : Z)
    (sent_starts : list Z) :
  reaches_scan a qn s e sent_starts ->
  resolved_sentence a qn
  = match scan_sentences s (sent_tokenize (text a)) 0 sent_starts None with
    | Ok v => v
    | Raise _ => None
    end.
Proof.
  intros (Hu & (spans & Hspans & Hstarts) & Hq & Hc).
  unfold NewsQA.resolved_sentence.
  rewrite Hu, Hspans, Hstarts, Hq, Hc. reflexivity.
Qed.

(** A step that does not raise leaves in the variable the sentence the
    question resolved, or else what was there, and never an empty
    sentence. *)
Lemma split_question_var (a : article) (qn : question) (st st' : state) :
  split_question a qn st = (st', Ok tt) ->
  sentence_tokens st <> Some [] ->
  sentence_tokens st'
  = match resolved_sentence a qn with
    | Some s => Some s
    | None => sentence_tokens st
    end
  /\ sentence_tokens st' <> Some [].
Proof.
  unfold NewsQA.split_question, NewsQA.resolved_sentence.
  intros H Hne.
  destruct (usable qn); [|injection H as <-; done].
  destruct (convert_idx _ _) as [spans|]; [|discriminate].
  destruct (compute_sent_starts _ _) as [starts|]; [|discriminate].
  destruct (Py.last_char _) as [c|]; [|discriminate].
  destruct (consensus qn) as [[s e]|], (Ascii.eqb c "?"); simpl in H |- *;
    try discriminate; try (injection H as <-; done).
  rewrite scan_sentences_var in H.
  destruct (scan_sentences s _ 0 starts None) as [[tokens|]|];
    [| |discriminate].
  - destruct tokens; simpl in H; [discriminate|].
    injection H as <-. done.
  - destruct (sentence_tokens st) as [[|t ts]|] eqn:Hv; simpl in H;
      try discriminate.
    injection H as <-. simpl. done.
Qed.

Lemma last_resolved_snoc (trace : list (article * question))
    (a : article) (qn : question) :
  forall v,
  last_resolved (trace ++ [(a, qn)]) v
  = match resolved_sentence a qn with
    | Some s => Some s
    | None => last_resolved trace v
    end.
Proof.
  induction trace as [|[a' qn'] rest IH]; intros v; simpl; [reflexivity|].
  apply IH.
Qed.

(** The variable holds the sentence resolved last, and is never bound to
    an empty sentence between two questions. *)
Lemma run_sentence_tokens (trace : list (article * question)) (st : state) :
  run trace st ->
  sentence_tokens st = last_resolved trace None
  /\ sentence_tokens st <> Some [].
Proof.
  induction 1 as [|trace st a qn st' Hrun [IH1 IH2] Hstep
                  |trace st Hrun [IH1 IH2]].
  - split; [reflexivity | discriminate].
  - destruct (split_question_var a qn st st' Hstep IH2) as [Hv Hne].
    split; [|exact Hne].
    rewrite Hv, last_resolved_snoc, IH1. reflexivity.
  - simpl. split; assumption.
Qed.

Lemma last_resolved_app (l1 l2 : list (article * question)) :
  forall v, last_resolved (l1 ++ l2) v = last_resolved l2 (last_resolved l1 v).
Proof.
  induction l1 as [|[a qn] l1 IH]; intros v; simpl; [reflexivity | apply IH].
Qed.

Lemma last_resolved_none (l : list (article * question)) :
  Forall (fun x => resolved_sentence x.1 x.2 = None) l ->
  forall v, last_resolved l v = v.
Proof.
  induction 1 as [|[a qn] l Hx _ IH]; intros v; simpl; [reflexivity|].
  simpl in Hx. rewrite Hx. apply IH.
Qed.

(** The states met by the loops of [split_data] are states of a run. *)
Lemma split_questions_run (a : article) (l : list question) :
  forall (trace : list (article * question)) (st st' : state),
  run trace st ->
  split_questions a l st = (st', Ok tt) ->
  run (trace ++ List.map (pair a) l) st'.
Proof.
  unfold NewsQA.split_questions.
  induction l as [|qn rest IH]; intros trace st st' Hrun H; simpl in *.
  - injection H as <-. rewrite app_nil_r. exact Hrun.
  - destruct (split_question a qn st) as [st1 [[]|ex]] eqn:Hstep;
      [|discriminate].
    rewrite (cons_middle (a, qn)), app_assoc.
    apply (IH _ st1); [|exact H].
    eapply run_question; eauto.
Qed.

Lemma split_articles_run (sub_dir : string) (data : list article) :
  forall (trace : list (article * question)) (st st' : state),
  run trace st ->
  NewsQA.split_articles word_tokenize sent_tokenize convert_idx
    sub_dir data st = (st', Ok tt) ->
  run (trace ++ questions_of sub_dir data) st'.
Proof.
  unfold NewsQA.split_articles.
  induction data as [|a rest IH]; intros trace st st' Hrun H; simpl in *.
  - injection H as <-. rewrite app_nil_r. exact Hrun.
  - unfold NewsQA.split_article in H.
    destruct (String.eqb (type a) sub_dir); simpl in H.
    + destruct (split_questions a (questions a) st) as [st1 [[]|ex]]
        eqn:Hstep; [|discriminate].
      rewrite app_assoc. apply (IH _ st1); [|exact H].
      eapply split_questions_run; eauto.
    + apply (IH _ st); assumption.
Qed.


(** C4, as the code has it.  A question that reaches the scan and whose
    answer start precedes every sentence start is never dropped: the
    extractor does not go on without writing a line for it, and while no
    sentence has been resolved it raises, which ends the run with the
    remaining questions left out. *)
Theorem resolution_failure_is_not_skipped (a : article) (qn : question)
    (s e : Z) (sent_starts : list Z) (rest : list question) (st : state) :
  reaches_scan a qn s e sent_starts ->
  (forall start, start ∈ sent_starts -> s < start) ->
  (forall st', split_question a qn st = (st', Ok tt) -> out st' <> out st)
  /\ (sentence_tokens st = None ->
      split_questions a (qn :: rest) st = (st, Raise UnboundLocalError)).
Proof.
  intros Hscan Hfail.
  pose proof (split_question_scanned a qn s e sent_starts st Hscan) as E.
  rewrite scan_sentences_untouched in E by exact Hfail.
  split.
  - intros st' H. rewrite E in H.
    destruct (check_found (sentence_tokens st)); [|discriminate].
    injection H as <-. simpl. intros Heq.
    apply (f_equal sentence_file), (f_equal length) in Heq.
    simpl in Heq. rewrite length_app in Heq. simpl in Heq. lia.
  - intros Hv. unfold NewsQA.split_questions. simpl. rewrite E, Hv. simpl.
    destruct st; simpl in *. rewrite Hv. reflexivity.
Qed.

(** C6 at a question whose consensus answer starts at offset 0: the
    test [question["consensus"].get("s")] is false for the offset 0, and
    the question is skipped whatever its flag and its text are. *)
Theorem consensus_start_zero_is_skipped (a : article) (bad : option Q)
    (e : Z) (text : string) (st : state) :
  split_question a (mk_question bad (Some (0, e)) text) st = (st, Ok tt).
Proof.
  apply split_question_unusable. unfold usable. simpl.
  apply andb_false_r.
Qed.

(** A usable question whose text is empty once stripped raises at
    [q[-1]] instead of being skipped. *)
Lemma empty_question_raises (a : article) (qn : question)
    (spans : list span) (sent_starts : list Z) (st : state) :
  usable qn = true ->
  convert_idx (text a) (word_tokenize (text a)) = Ok spans ->
  compute_sent_starts spans (sent_tokenize (text a)) = Ok sent_starts ->
  Py.strip (q qn) = "" ->
  split_question a qn st = (st, Raise IndexError).
Proof.
  intros Hu Hspans Hstarts Hq. unfold NewsQA.split_question.
  rewrite Hu, Hspans, Hstarts, Hq. reflexivity.
Qed.

(** A usable question whose stripped text ends with another character
    than ['?'] is skipped. *)
Lemma not_interrogative_is_skipped (a : article) (qn : question)
    (spans : list span) (sent_starts : list Z) (c : ascii) (st : state) :
  usable qn = true ->
  convert_idx (text a) (word_tokenize (text a)) = Ok spans ->
  compute_sent_starts spans (sent_tokenize (text a)) = Ok sent_starts ->
  Py.last_char (Py.strip (q qn)) = Ok c -> c <> "?"%char ->
  split_question a qn st = (st, Ok tt).
Proof.
  intros Hu Hspans Hstarts Hq Hc. unfold NewsQA.split_question.
  rewrite Hu, Hspans, Hstarts, Hq.
  destruct (Ascii.eqb_spec c "?"); [done | reflexivity].
Qed.

(** What [usable] accepts: a flag that is present and zero, and a
    consensus span that starts at another offset than 0. *)
Lemma usable_iff (qn : question) :
  usable qn = true
  <-> (exists b, isQuestionBad qn = Some b /\ Qeq_bool b 0 = true)
      /\ (exists s e, consensus qn = Some (s, e) /\ s <> 0).
Proof.
  unfold usable. rewrite andb_true_iff. split.
  - intros [Hb Hs]. split.
    + destruct (isQuestionBad qn) as [b|]; [eauto | discriminate].
    + destruct (consensus qn) as [[s e]|]; [|discriminate].
      exists s, e. split; [reflexivity|].
      destruct (Z.eqb_spec s 0); [discriminate | assumption].
  - intros [(b & -> & Hb) (s & e & -> & Hs)]. split; [exact Hb|].
    destruct (Z.eqb_spec s 0); [contradiction | reflexivity].
Qed.

(** In an article that tokenizes, the questions that are skipped, with
    no line written and no exception, are the unusable ones and the usable
    ones whose stripped text ends with another character than ['?']. *)
Lemma split_question_skips_iff (a : article) (qn : question)
    (spans : list span) (sent_starts : list Z) (st : state) :
  convert_idx (text a) (word_tokenize (text a)) = Ok spans ->
  compute_sent_starts spans (sent_tokenize (text a)) = Ok sent_starts ->
  split_question a qn st = (st, Ok tt)
  <-> usable qn = false
      \/ (exists c, Py.last_char (Py.strip (q qn)) = Ok c /\ c <> "?"%char).
Proof.
  intros Hspans Hstarts. split.
  - intros H. destruct (usable qn) eqn:Hu; [right | left; reflexivity].
    destruct (Py.last_char (Py.strip (q qn))) as [c|ex] eqn:Hq.
    + exists c. split; [reflexivity|]. intros ->.
      pose proof Hu as Hu'.
      apply usable_iff in Hu' as [_ (s & e & Hc & _)].
      assert (reaches_scan a qn s e sent_starts) as Hscan.
      { split; [exact Hu|]. split; [exists spans; split; assumption|].
        split; [exact Hq | exact Hc]. }
      rewrite (split_question_scanned a qn s e sent_starts st Hscan) in H.
      destruct (scan_sentences s _ 0 sent_starts _) as [v|ex];
        [|discriminate].
      destruct (check_found v); [|discriminate].
      injection H as H.
      apply (f_equal (fun x => length (sentence_file (out x)))) in H.
      simpl in H. rewrite length_app in H. simpl in H. lia.
    + unfold NewsQA.split_question in H.
      rewrite Hu, Hspans, Hstarts, Hq in H. discriminate.
  - intros [Hu | (c & Hq & Hc)].
    + by apply split_question_unusable.
    + destruct (usable qn) eqn:Hu; [|by apply split_question_unusable].
      eapply not_interrogative_is_skipped; eauto.
Qed.

End NewsQAQuestion.

(** ** The NewsQA extractor on a concrete article *)

Example sample_sent_starts :
  Utils.convert_idx Sample.story (Toy.word_tokenize Sample.story)
  = Ok [(2, 6); (7, 12); (13, 14); (15, 19); (20, 23); (24, 25)]
  /\ compute_sent_starts
       [(2, 6); (7, 12); (13, 14); (15, 19); (20, 23); (24, 25)]
       (Toy.sent_tokenize Sample.story) = Ok [2; 15].
Proof. split; reflexivity. Qed.

Lemma sample_reaches_scan (qn : NewsQA.question) (s e : Z)
    (l : list NewsQA.question) :
  NewsQA.usable qn = true ->
  Py.last_char (Py.strip (NewsQA.q qn)) = Ok "?"%char ->
  NewsQA.consensus qn = Some (s, e) ->
  NewsQA.reaches_scan Toy.word_tokenize Toy.sent_tokenize Utils.convert_idx
    (Sample.article l) qn s e [2; 15].
Proof.
  intros Hu Hq Hc. split; [exact Hu|]. split; [|split; assumption].
  eexists. split; reflexivity.
Defined.

Lemma sample_starts_after_1 : forall start : Z, start ∈ [2; 15] -> 1 < start.
Proof.
  intros start H.
  apply elem_of_cons in H as [-> | H]; [lia|].
  apply elem_of_cons in H as [-> | H]; [lia|].
  inversion H.
Defined.


Lemma resolution_failure_is_not_skipped_witness :
  NewsQA.split_questions Toy.word_tokenize Toy.sent_tokenize Utils.convert_idx
    (Sample.article []) [Sample.asks_sleep; Sample.asks_run]
    (NewsQA.mk_state no_files None)
  = (NewsQA.mk_state no_files None, Raise UnboundLocalError).
Proof.
  refine (proj2 (resolution_failure_is_not_skipped Toy.word_tokenize
                   Toy.sent_tokenize Utils.convert_idx (Sample.article [])
                   Sample.asks_sleep 1 6 [2; 15] [Sample.asks_run]
                   (NewsQA.mk_state no_files None) _ _) eq_refl).
  - apply sample_reaches_scan; reflexivity.
  - exact sample_starts_after_1.
Defined.

(** C4 as stated fails.  The answer of the first question of the article
    starts at offset 1, before every sentence start ([2] and [15]): the
    question is not dropped, the run raises, and the second question, which
    resolves, is never written. *)
Lemma resolution_failure_aborts_run :
  compute_sent_starts
    [(2, 6); (7, 12); (13, 14); (15, 19); (20, 23); (24, 25)]
    (Toy.sent_tokenize Sample.story) = Ok [2; 15]
  /\ NewsQA.consensus Sample.asks_sleep = Some (1, 6)
  /\ NewsQA.split_data Toy.word_tokenize Toy.sent_tokenize Utils.convert_idx
       [Sample.article [Sample.asks_sleep; Sample.asks_run]]
     = ([("train", no_files)], Raise UnboundLocalError)
  /\ NewsQA.split_data Toy.word_tokenize Toy.sent_tokenize Utils.convert_idx
       [Sample.article [Sample.asks_run]]
     = ([("train", mk_files ["Dogs run ." +:+ newline]
                     ["Who runs ?" +:+ newline] ["Dogs" +:+ newline]);
         ("dev", no_files)], Ok tt).
Proof. repeat split; reflexivity. Qed.

(** The scenario of C6: a question without a final ['?'] is skipped. *)
Example not_a_question_ex :
  NewsQA.split_data Toy.word_tokenize Toy.sent_tokenize Utils.convert_idx
    [Sample.article
       [NewsQA.mk_question (Some 0%Q) (Some (15, 19)) "is this a question"]]
  = ([("train", no_files); ("dev", no_files)], Ok tt).
Proof. reflexivity. Qed.

(** C6 on a run: the answer ["Cats"] of the question starts at offset 0 of
    the story; the question is not flagged, has a consensus span and ends
    with ['?'], and no line is written for it. *)
Example consensus_start_zero_ex :
  NewsQA.split_data Toy.word_tokenize Toy.sent_tokenize Utils.convert_idx
    [NewsQA.mk_article "train" "Cats sleep . Dogs run ."
       [NewsQA.mk_question (Some 0%Q) (Some (0, 4)) "Who sleeps ?"]]
  = ([("train", no_files); ("dev", no_files)], Ok tt)
  /\ NewsQA.split_data Toy.word_tokenize Toy.sent_tokenize Utils.convert_idx
       [NewsQA.mk_article "train" "Cats sleep . Dogs run ."
          [NewsQA.mk_question (Some 0%Q) (Some (5, 10)) "What do cats do ?"]]
     = ([("train", mk_files ["Cats sleep ." +:+ newline]
                     ["What do cats do ?" +:+ newline] ["sleep" +:+ newline]);
         ("dev", no_files)], Ok tt).
Proof. split; reflexivity. Qed.

(** ** Searching a string *)

Lemma append_assoc (a b c : string) : (a +:+ b) +:+ c = a +:+ b +:+ c.
Proof.
  induction a as [|x a IH]; [reflexivity|].
  change (String x ((a +:+ b) +:+ c) = String x (a +:+ b +:+ c)).
  f_equal. exact IH.
Qed.

Lemma length_append (a b : string) :
  String.length (a +:+ b) = (String.length a + String.length b)%nat.
Proof.
  induction a as [|x a IH]; [reflexivity|].
  change (S (String.length (a +:+ b))
          = S (String.length a + String.length b)).
  f_equal. exact IH.
Qed.

Lemma drop_append (a b : string) : Py.drop (String.length a) (a +:+ b) = b.
Proof. induction a as [|x a IH]; simpl; [by destruct b | exact IH]. Qed.

Lemma prefix_append (sub post : string) :
  String.prefix sub (sub +:+ post) = true.
Proof.
  induction sub as [|x sub IH]; simpl; [by destruct post|].
  destruct (ascii_dec x x); [exact IH | done].
Qed.

Lemma prefix_inv (sub : string) :
  forall s, String.prefix sub s = true -> exists post, s = sub +:+ post.
Proof.
  induction sub as [|x sub IH]; intros s H.
  - exists s. reflexivity.
  - destruct s as [|y s]; simpl in H; [discriminate|].
    destruct (ascii_dec x y) as [->|]; [|discriminate].
    destruct (IH s H) as [post ->]. exists post. reflexivity.
Qed.

(** [find_from] returns the position of the first occurrence, counted
    from [i], or -1 when there is none. *)
Lemma find_from_spec (sub : string) :
  forall (s : string) (i : Z),
  (Py.find_from sub s i = -1 /\ forall pre, ~ occurs_at sub s pre)
  \/ (exists pre,
        occurs_at sub s pre
        /\ Py.find_from sub s i = i + Py.len pre
        /\ forall pre', occurs_at sub s pre' ->
                        (String.length pre <= String.length pre')%nat).
Proof.
  induction s as [|c s IH]; intros i; cbn [Py.find_from].
  - destruct (String.prefix sub "") eqn:Hp.
    + right. exists "". split; [|split].
      * apply prefix_inv in Hp as [post Hpost]. exists post. exact Hpost.
      * unfold Py.len. simpl. lia.
      * intros pre' _. simpl. lia.
    + left. split; [reflexivity|].
      intros pre [post H]. destruct pre; [|discriminate].
      change ("" = sub +:+ post) in H.
      pose proof (prefix_append sub post) as Hp'. rewrite <- H in Hp'.
      congruence.
  - destruct (String.prefix sub (String c s)) eqn:Hp.
    + right. exists "". split; [|split].
      * apply prefix_inv in Hp as [post Hpost]. exists post. exact Hpost.
      * unfold Py.len. simpl. lia.
      * intros pre' _. simpl. lia.
    + assert (forall pre post, String c s = pre +:+ sub +:+ post ->
                exists pre', pre = String c pre' /\ s = pre' +:+ sub +:+ post)
        as Hcons.
      { intros pre post H. destruct pre as [|c' pre'].
        - change (String c s = sub +:+ post) in H.
          pose proof (prefix_append sub post) as Hp'.
          rewrite <- H in Hp'. congruence.
        - change (String c s = String c' (pre' +:+ sub +:+ post)) in H.
          injection H as -> ->. eauto. }
      destruct (IH (i + 1)) as [[Hf Hnone] | (pre & [post Hocc] & Hf & Hmin)].
      * left. split; [exact Hf|].
        intros pre [post H]. destruct (Hcons pre post H) as (pre' & -> & H').
        apply (Hnone pre'). exists post. exact H'.
      * right. exists (String c pre). split; [|split].
        -- exists post. simpl. rewrite Hocc. reflexivity.
        -- rewrite Hf. unfold Py.len. simpl String.length. lia.
        -- intros pre0 [post0 H0].
           destruct (Hcons pre0 post0 H0) as (pre' & -> & H').
           simpl. apply le_n_S. apply Hmin. exists post0. exact H'.
Qed.



(** ** Paths *)

Lemma chars_append (x y : string) :
  Py.chars (x +:+ y) = Py.chars x ++ Py.chars y.
Proof.
  induction x as [|c x IH]; [reflexivity|].
  change (c :: Py.chars (x +:+ y) = c :: (Py.chars x ++ Py.chars y)).
  f_equal. exact IH.
Qed.

Lemma append_inj_l (a x y : string) : a +:+ x = a +:+ y -> x = y.
Proof.
  induction a as [|c a IH]; intros H; [exact H|].
  change (String c (a +:+ x) = String c (a +:+ y)) in H.
  injection H as H. exact (IH H).
Qed.

Lemma path_join2_dir (d a : string) :
  String.prefix "/" a = false -> Py.path_join2 d a = dir_prefix d +:+ a.
Proof.
  intros Ha. unfold Py.path_join2, dir_prefix. rewrite Ha.
  destruct (rev (Py.chars d)) as [|c l]; [reflexivity|].
  destruct (Ascii.eqb c "/"); [reflexivity|].
  symmetry. apply append_assoc.
Qed.

(** Joining a directory with two components that hold no separator at
    their ends. *)
Lemma path_join_dir (d a b : string) (l : list ascii) (c : ascii) :
  String.prefix "/" a = false -> String.prefix "/" b = false ->
  rev (Py.chars a) = c :: l -> c <> "/"%char ->
  Py.path_join d a b = dir_prefix d +:+ a +:+ "/" +:+ b.
Proof.
  intros Ha Hb Hlast Hc. unfold Py.path_join.
  rewrite (path_join2_dir d a Ha).
  unfold Py.path_join2 at 1. rewrite Hb.
  rewrite chars_append, rev_app_distr, Hlast. simpl.
  destruct (Ascii.eqb_spec c "/"); [done|].
  apply append_assoc.
Qed.

Lemma path_join_train (d file : string) :
  String.prefix "/" file = false ->
  Py.path_join d "train" file = dir_prefix d +:+ "train/" +:+ file.
Proof.
  intros H.
  apply (path_join_dir d "train" file ["i"; "a"; "r"; "t"]%char "n"%char);
    [reflexivity | exact H | reflexivity | discriminate].
Qed.

Lemma path_join_dev (d file : string) :
  String.prefix "/" file = false ->
  Py.path_join d "dev" file = dir_prefix d +:+ "dev/" +:+ file.
Proof.
  intros H.
  apply (path_join_dir d "dev" file ["e"; "d"]%char "v"%char);
    [reflexivity | exact H | reflexivity | discriminate].
Qed.

(** Two files of the same directory tree with different relative paths
    are different files. *)
Ltac different_paths :=
  rewrite ?path_join_train, ?path_join_dev by reflexivity;
  let H := fresh in
  intros H; apply append_inj_l in H; discriminate H.

Lemma merge_outputs_NoDup (out_dir : string) :
  NoDup (Merge.merge_outputs out_dir).
Proof.
  unfold Merge.merge_outputs.
  repeat (apply NoDup_cons; split;
          [rewrite ?elem_of_cons, elem_of_nil;
           intros H; repeat destruct H as [H|H]; try done;
           revert H; different_paths |]).
  apply NoDup_nil_2.
Qed.

Lemma answer_not_merge_output (out_dir : string) :
  (Py.path_join out_dir "train" "train.answer" ∉ Merge.merge_outputs out_dir)
  /\ (Py.path_join out_dir "dev" "dev.answer" ∉ Merge.merge_outputs out_dir).
Proof.
  unfold Merge.merge_outputs.
  split; rewrite ?elem_of_cons, elem_of_nil;
    intros H; repeat destruct H as [H|H]; try done;
    revert H; different_paths.
Qed.

(** ** The order of the keyed lines *)

Lemma string_leb_iff (a b : string) :
  String.leb a b = true
  <-> a = b \/ OrderedTypeEx.String_as_OT.lt a b.
Proof.
  unfold String.leb.
  pose proof (OrderedTypeEx.String_as_OT.cmp_lt a b) as Hlt.
  pose proof (OrderedTypeEx.String_as_OT.cmp_eq a b) as Heq.
  unfold OrderedTypeEx.String_as_OT.cmp in *.
  destruct (String.compare a b).
  - split; [left; apply Heq; reflexivity | reflexivity].
  - split; [right; apply Hlt; reflexivity | reflexivity].
  - split; [discriminate|].
    intros [E | L]; [apply Heq in E | apply Hlt in L]; discriminate.
Qed.

Lemma string_leb_trans (a b c : string) :
  String.leb a b = true -> String.leb b c = true -> String.leb a c = true.
Proof.
  rewrite !string_leb_iff. intros [-> | Hab] [-> | Hbc]; auto.
  right. eapply OrderedTypeEx.String_as_OT.lt_trans; eauto.
Qed.

#[global] Instance keyed_le_total : Total Merge.keyed_le.
Proof.
  intros [k1 l1] [k2 l2]. unfold Merge.keyed_le, Merge.keyed_leb. simpl.
  destruct (Z.ltb_spec k1 k2); [left; reflexivity|].
  destruct (Z.ltb_spec k2 k1); [right; reflexivity|].
  assert (k1 = k2) as -> by lia. rewrite Z.eqb_refl. simpl.
  apply String.leb_total.
Qed.

#[global] Instance keyed_le_trans : Transitive Merge.keyed_le.
Proof.
  intros [k1 l1] [k2 l2] [k3 l3]. unfold Merge.keyed_le, Merge.keyed_leb.
  simpl. intros H12 H23.
  apply orb_true_iff in H12 as [H12 | H12], H23 as [H23 | H23];
    rewrite ?andb_true_iff in *; apply orb_true_iff.
  - left. lia.
  - left. lia.
  - left. lia.
  - right. destruct H12 as [E12 L12], H23 as [E23 L23].
    rewrite andb_true_iff. split; [lia|].
    eapply string_leb_trans; eauto.
Qed.

#[global] Instance keyed_le_antisym : AntiSymm (=) Merge.keyed_le.
Proof.
  intros [k1 l1] [k2 l2]. unfold Merge.keyed_le, Merge.keyed_leb.
  simpl. intros H12 H21.
  apply orb_true_iff in H12 as [H12 | H12], H21 as [H21 | H21];
    rewrite ?andb_true_iff in *; try lia.
  destruct H12 as [E L12], H21 as [_ L21].
  f_equal; [lia | by apply String.leb_antisym].
Qed.

(** ** The corpus merger *)

Section Merger.

Import Merge.

Variable random : nat -> Z.

Lemma draw_keys_lines (lines : list string) :
  forall n, (draw_keys random n lines).*2 = lines.
Proof.
  induction lines as [|line rest IH]; intros n; simpl; [reflexivity|].
  by rewrite IH.
Qed.

(** Shuffling a file keeps its lines, in some order. *)
Lemma shuffle_Permutation (n : nat) (lines : list string) :
  shuffle random n lines ≡ₚ lines.
Proof.
  unfold shuffle. rewrite merge_sort_Permutation.
  by rewrite draw_keys_lines.
Qed.

(** The outcome of [lines.sort()] does not depend on the sorting
    algorithm: the shuffled file is the one list of its keyed lines that
    is in order. *)
Lemma shuffle_sorted (n : nat) (lines : list string) (l : list keyed) :
  l ≡ₚ draw_keys random n lines -> Sorted keyed_le l ->
  l.*2 = shuffle random n lines.
Proof.
  intros Hperm Hsorted. unfold shuffle. f_equal.
  apply (Sorted_unique keyed_le); [exact Hsorted | |].
  - apply Sorted_merge_sort; apply _.
  - by rewrite merge_sort_Permutation.
Qed.

Lemma read_all_found (files : gmap string (list string))
    (filenames : list string) :
  forall acc,
  Forall (fun fname => is_Some (files !! fname)) filenames ->
  exists lines,
    read_all files filenames acc = (acc ++ lines, Ok tt)
    /\ lines = concat (omap (fun fname => files !! fname) filenames).
Proof.
  induction filenames as [|fname rest IH]; intros acc Hall.
  - exists []. simpl. by rewrite app_nil_r.
  - apply Forall_cons in Hall as [[lines Hf] Hrest].
    destruct (IH (acc ++ lines) Hrest) as (more & Hread & ->).
    exists (lines ++ concat (omap (fun fname => files !! fname) rest)).
    simpl. rewrite Hf, Hread, <- app_assoc. done.
Qed.

(** [concatenate_data] on two existing inputs other than the output. *)
Lemma concatenate_data_two (f1 f2 out : string) (a b : list string)
    (w : world) :
  f1 <> out -> f2 <> out ->
  fs w !! f1 = Some a -> fs w !! f2 = Some b ->
  concatenate_data random [f1; f2] out w
  = (mk_world (<[out := shuffle random (drawn w) (a ++ b)]> (fs w))
              (drawn w + length (a ++ b))%nat, Ok tt).
Proof.
  intros H1 H2 Ha Hb. unfold concatenate_data. simpl.
  rewrite !lookup_insert_ne by congruence.
  rewrite Ha, Hb. simpl. rewrite insert_insert_eq. reflexivity.
Qed.

Variable squad_data_dir : string.
Variable newsqa_data_dir : string.
Variable out_dir : string.

Local Abbreviation inputs := (merge_inputs squad_data_dir newsqa_data_dir).
Local Abbreviation outputs := (merge_outputs out_dir).


End Merger.

(** ** The merge stage on concrete corpora *)



(** C1 on concrete corpora.  Every call of [concatenate_data] draws its
    own keys: with the keys 0.25, 0.75 for the sentence file and 0.75, 0.25
    for the question file, the merged sentence file keeps the order of the
    corpora and the merged question file reverses it.  Line 0 of the merged
    files pairs the sentence of one example with the question of the other;
    no answer line goes with them. *)
Theorem merge_stage_shuffles_files_apart :
  let (w', r) :=
    Merge.merge_stage Sample.random "squad" "newsqa" "out" Sample.world in
  r = Ok tt
  /\ Merge.fs w' !! "out/train/train.sentence"
     = Some ["Cats sleep ." +:+ newline; "Dogs run ." +:+ newline]
  /\ Merge.fs w' !! "out/train/train.question"
     = Some ["Who runs ?" +:+ newline; "Who sleeps ?" +:+ newline]
  /\ Merge.fs w' !! "out/train/train.answer" = None.
Proof. vm_compute. repeat split. Qed.

(** * Further properties of the extractors and of the merger *)

(** ** Loops that keep an invariant *)

Lemma for_each_invariant {S A : Type} (P : S -> Prop)
    (body : A -> S -> S * result unit) :
  (forall x st st' r, P st -> body x st = (st', r) -> P st') ->
  forall l st st' r, P st -> for_each body l st = (st', r) -> P st'.
Proof.
  intros Hbody. induction l as [|x l IH]; intros st st' r HP H; simpl in H.
  - injection H as <- _. exact HP.
  - destruct (body x st) as [st1 [[]|e]] eqn:Hx.
    + apply (IH st1 st' r); [|exact H]. eapply Hbody; eauto.
    + injection H as <- _. eapply Hbody; eauto.
Qed.

(** A loop that ends without an exception adds up what its iterations add. *)
Lemma for_each_sum {S A : Type} (m : S -> nat) (w : A -> nat)
    (body : A -> S -> S * result unit) :
  (forall x st st', body x st = (st', Ok tt) -> m st' = (m st + w x)%nat) ->
  forall l st st',
  for_each body l st = (st', Ok tt) ->
  m st' = (m st + list_sum (List.map w l))%nat.
Proof.
  intros Hbody. induction l as [|x l IH]; intros st st' H; simpl in H.
  - injection H as <-. simpl. lia.
  - destruct (body x st) as [st1 [[]|e]] eqn:Hx; [|discriminate].
    rewrite (IH st1 st' H), (Hbody x st st1 Hx). simpl. lia.
Qed.

(** Elements on which the body does nothing can be left out of the loop. *)
Lemma for_each_filter {S A : Type} (keep : A -> bool)
    (body : A -> S -> S * result unit) :
  (forall x st, keep x = false -> body x st = (st, Ok tt)) ->
  forall l st, for_each body l st = for_each body (List.filter keep l) st.
Proof.
  intros Hskip. induction l as [|x l IH]; intros st; simpl; [reflexivity|].
  destruct (keep x) eqn:Hk; simpl.
  - destruct (body x st) as [st1 [[]|e]]; [apply IH | reflexivity].
  - rewrite (Hskip x st Hk). apply IH.
Qed.

Lemma length_filter_flat_map {A B : Type} (p : B -> bool) (f : A -> list B)
    (l : list A) :
  length (List.filter p (flat_map f l))
  = list_sum (List.map (fun x => length (List.filter p (f x))) l).
Proof.
  induction l as [|x l IH]; simpl; [reflexivity|].
  rewrite List.filter_app, length_app, IH. reflexivity.
Qed.

#[global] Instance files_extend_refl : Reflexive files_extend.
Proof. intros f. repeat split; reflexivity. Qed.

#[global] Instance files_extend_trans : Transitive files_extend.
Proof.
  intros f g h (H1 & H2 & H3) (K1 & K2 & K3).
  repeat split; etransitivity; eauto.
Qed.

Lemma write_triple_aligned (f : files) (s q a : string) :
  aligned f -> aligned (write_triple f s q a).
Proof.
  intros [H1 H2]. unfold aligned. simpl. rewrite !length_app. simpl. lia.
Qed.

Lemma write_triple_extend (f : files) (s q a : string) :
  files_extend f (write_triple f s q a).
Proof. repeat split; simpl; apply prefix_app_r; reflexivity. Qed.

(** ** Runs of the SQuAD extractor *)

Section SquadRun.

Import Squad.

Variable clean_text : string -> string.
Variable word_tokenize : string -> list string.
Variable sent_tokenize : string -> list (list string).
Variable convert_idx : string -> list string -> result (list span).

Local Abbreviation split_qa := (Squad.split_qa clean_text word_tokenize).
Local Abbreviation split_qas := (Squad.split_qas clean_text word_tokenize).
Local Abbreviation split_paragraph :=
  (Squad.split_paragraph clean_text word_tokenize sent_tokenize convert_idx).
Local Abbreviation split_paragraphs :=
  (Squad.split_paragraphs clean_text word_tokenize sent_tokenize convert_idx).
Local Abbreviation split_articles :=
  (Squad.split_articles clean_text word_tokenize sent_tokenize convert_idx).
Local Abbreviation split_data :=
  (Squad.split_data clean_text word_tokenize sent_tokenize convert_idx).

(** What one question does to the files, on either split. *)
Lemma split_qa_cases (sub_dir : string) (sent_starts : list Z)
    (context_sentences : list (list string)) (q : qa) (f f' : files)
    (r : result unit) :
  split_qa sub_dir sent_starts context_sentences q f = (f', r) ->
  (answerable q = false /\ f' = f /\ r = Ok tt)
  \/ (answerable q = true /\ f' = f /\ exists e, r = Raise e)
  \/ (answerable q = true /\ r = Ok tt /\
      exists s a,
        f' = write_triple f s
               (Py.join " " (word_tokenize (clean_text (question q)))) a).
Proof.
  unfold Squad.split_qa, answer_count, answerable.
  destruct (answers q) as [|a0 rest] eqn:Ha.
  - destruct (String.eqb sub_dir "train"); simpl;
      intros H; injection H as <- <-; left; done.
  - intros H. right.
    assert (exists n,
              (if String.eqb sub_dir "train" then 1%nat
               else length (a0 :: rest)) = S n) as [n Hn].
    { destruct (String.eqb sub_dir "train"); simpl; eauto. }
    rewrite Hn in H.
    destruct (answers_loop _ _ _ _ _ _ _) as [[s a]|e].
    + injection H as <- <-. right. split; [done|]. split; [done|]. eauto.
    + injection H as <- <-. left. eauto.
Qed.

Lemma split_qas_invariant (P : files -> Prop) :
  (forall f s q a, P f -> P (write_triple f s q a)) ->
  forall sub_dir sent_starts context_sentences l f f' r,
  P f ->
  split_qas sub_dir sent_starts context_sentences l f = (f', r) -> P f'.
Proof.
  intros Hw sub_dir sent_starts context_sentences.
  apply for_each_invariant. intros q f f' r HP H.
  apply split_qa_cases in H
    as [(_ & -> & _) | [(_ & -> & _) | (_ & _ & s & a & ->)]]; auto.
Qed.

(** An invariant that the three [write] calls keep is kept by a run. *)
Lemma split_articles_invariant (P : files -> Prop) :
  (forall f s q a, P f -> P (write_triple f s q a)) ->
  forall sub_dir data f f' r,
  P f -> split_articles sub_dir data f = (f', r) -> P f'.
Proof.
  intros Hw sub_dir. apply for_each_invariant. intros a.
  apply for_each_invariant. intros p f f' r HP H.
  unfold Squad.split_paragraph in H.
  destruct (convert_idx _ _) as [spans|e]; [|by injection H as <- _].
  destruct (compute_sent_starts _ _) as [starts|e];
    [|by injection H as <- _].
  eapply split_qas_invariant; eauto.
Qed.


(** X2. Lines are only appended: when the articles [data1] are treated
    without an exception, the files of a run on [data1 ++ data2] begin
    with the files of the run on [data1], also when that run raises. *)
Theorem squad_run_keeps_earlier_lines (sub_dir : string)
    (data1 data2 : list article) (f1 f : files) (r : result unit) :
  split_articles sub_dir data1 no_files = (f1, Ok tt) ->
  split_articles sub_dir (data1 ++ data2) no_files = (f, r) ->
  files_extend f1 f.
Proof.
  intros H1 H. unfold Squad.split_articles in *.
  rewrite for_each_app, H1 in H.
  eapply (split_articles_invariant (files_extend f1)); [| |exact H].
  - intros f0 s q a Hf. etransitivity; [exact Hf|].
    apply write_triple_extend.
  - reflexivity.
Qed.

Lemma split_qa_count (sub_dir : string) (sent_starts : list Z)
    (context_sentences : list (list string)) (q : qa) (f f' : files) :
  split_qa sub_dir sent_starts context_sentences q f = (f', Ok tt) ->
  length (sentence_file f')
  = (length (sentence_file f) + if answerable q then 1 else 0)%nat.
Proof.
  intros H. apply split_qa_cases in H
    as [(-> & -> & _) | [(_ & _ & e & He) | (-> & _ & s & a & ->)]].
  - lia.
  - discriminate.
  - simpl. rewrite length_app. simpl. lia.
Qed.

(** X3. A run that ends without an exception has written one line per
    question that has at least one answer, on the train split and on any
    other split alike. *)
Theorem squad_line_count (filename : string) (data : list article)
    (f : files) :
  split_data filename data = (f, Ok tt) ->
  length (sentence_file f) = length (List.filter answerable (all_qas data)).
Proof.
  unfold Squad.split_data, all_qas. intros H.
  pose (m := fun f : files => length (sentence_file f)).
  assert (forall sub_dir (p : paragraph) f0 f1,
            split_paragraph sub_dir p f0 = (f1, Ok tt) ->
            m f1 = (m f0 + length (List.filter answerable (qas p)))%nat)
    as Hpar.
  { intros sub_dir p f0 f1 Hp. unfold Squad.split_paragraph in Hp.
    destruct (convert_idx _ _) as [spans|e]; [|discriminate].
    destruct (compute_sent_starts _ _) as [starts|e]; [|discriminate].
    rewrite (for_each_sum m (fun q => if answerable q then 1 else 0)%nat
               _ (fun q f0 f1 => split_qa_count _ _ _ q f0 f1) _ _ _ Hp).
    f_equal. clear. induction (qas p) as [|q l IH]; simpl; [reflexivity|].
    destruct (answerable q); simpl; lia. }
  assert (forall sub_dir (a : article) f0 f1,
            split_paragraphs sub_dir (paragraphs a) f0 = (f1, Ok tt) ->
            m f1 = (m f0 + length (List.filter answerable
                                     (flat_map qas (paragraphs a))))%nat)
    as Hart.
  { intros sub_dir a f0 f1 Ha.
    rewrite (for_each_sum m _ _ (Hpar sub_dir) _ _ _ Ha).
    by rewrite length_filter_flat_map. }
  rewrite length_filter_flat_map.
  exact (for_each_sum m _ _ (fun a => Hart _ a) _ _ _ H).
Qed.

(** X4. A paragraph in which the sentence splitter finds no sentence ends
    the run at its first question that has an answer: there is no sentence
    start to compare the answer with, and the resolver raises. *)
Theorem squad_paragraph_without_sentences (sub_dir : string) (p : paragraph)
    (spans : list span) (q : qa) (l1 l2 : list qa) (f : files) :
  sent_tokenize (clean_text (context p)) = [] ->
  convert_idx (clean_text (context p))
    (word_tokenize (clean_text (context p))) = Ok spans ->
  qas p = l1 ++ q :: l2 ->
  Forall (fun q' => answerable q' = false) l1 ->
  answerable q = true ->
  split_paragraph sub_dir p f = (f, Raise Exception).
Proof.
  intros Hsents Hspans Hqas Hl1 Hq. unfold Squad.split_paragraph.
  rewrite Hspans, Hsents, Hqas. simpl. unfold Squad.split_qas.
  apply (for_each_raise _ l1 l2 q f f f).
  - clear Hqas. induction Hl1 as [|q' l Hq' _ IH]; simpl; [reflexivity|].
    unfold Squad.split_qa at 1, answer_count. unfold answerable in Hq'.
    destruct (answers q'); [|discriminate].
    destruct (String.eqb sub_dir "train"); exact IH.
  - unfold Squad.split_qa, answer_count. unfold answerable in Hq.
    destruct (answers q) as [|a rest]; [discriminate|].
    destruct (String.eqb sub_dir "train"); reflexivity.
Qed.

End SquadRun.

Lemma squad_run_keeps_earlier_lines_witness :
  files_extend
    (mk_files ["Cats sleep ." +:+ newline; "Dogs run ." +:+ newline]
              ["Who moves ?" +:+ newline; "Who runs ?" +:+ newline]
              ["Cats" +:+ newline; "Dogs" +:+ newline])
    (Squad.split_articles Toy.clean_text Toy.word_tokenize Toy.sent_tokenize
       Utils.convert_idx "train"
       ([Squad.mk_article [SquadSample.pets]]
        ++ [Squad.mk_article [SquadSample.broken; SquadSample.pets]])
       no_files).1.
Proof.
  apply (squad_run_keeps_earlier_lines Toy.clean_text Toy.word_tokenize
           Toy.sent_tokenize Utils.convert_idx "train"
           [Squad.mk_article [SquadSample.pets]]
           [Squad.mk_article [SquadSample.broken; SquadSample.pets]]
           _ _ (Raise Exception)); reflexivity.
Defined.

Lemma squad_line_count_witness :
  length
    (sentence_file
       (mk_files ["Dogs run ." +:+ newline; "Dogs run ." +:+ newline]
                 ["Who moves ?" +:+ newline; "Who runs ?" +:+ newline]
                 ["Dogs" +:+ newline; "Dogs" +:+ newline]))
  = length (List.filter answerable
              (all_qas [Squad.mk_article [SquadSample.pets]])).
Proof.
  apply (squad_line_count Toy.clean_text Toy.word_tokenize Toy.sent_tokenize
           Utils.convert_idx "dev-v2.0.json"
           [Squad.mk_article [SquadSample.pets]]).
  reflexivity.
Defined.

Lemma squad_paragraph_without_sentences_witness :
  Squad.split_paragraph Toy.clean_text Toy.word_tokenize Toy.sent_tokenize
    Utils.convert_idx "train" SquadSample.blank no_files
  = (no_files, Raise Exception).
Proof.
  apply (squad_paragraph_without_sentences Toy.clean_text Toy.word_tokenize
           Toy.sent_tokenize Utils.convert_idx "train" SquadSample.blank []
           (Squad.mk_qa "Who swims ?" [Squad.mk_answer "Fish" 0])
           [Squad.mk_qa "Who flies ?" []] []);
    try reflexivity.
  repeat constructor.
Defined.

(** ** Sentence boundaries and the scan, together *)

Lemma sent_starts_loop_offsets (spans : list span)
    (context_sentences : list (list string)) :
  forall num_tokens : nat,
  (Forall (fun off => (off < length spans)%nat)
     (first_token_offsets num_tokens context_sentences) ->
   sent_starts_loop spans context_sentences num_tokens []
   = Ok (List.map (fun off => match spans !! off with
                              | Some sp => sp.1
                              | None => 0
                              end)
           (first_token_offsets num_tokens context_sentences)))
  /\ (Exists (fun off => (length spans <= off)%nat)
        (first_token_offsets num_tokens context_sentences) ->
      sent_starts_loop spans context_sentences num_tokens []
      = Raise IndexError).
Proof.
  induction context_sentences as [|s rest IH]; intros n; simpl.
  - split; [reflexivity|]. intros H. inversion H.
  - destruct (IH (n + length s)%nat) as [IHok IHerr]. split.
    + intros H. apply Forall_cons in H as [Hn Hrest].
      destruct (lookup_lt_is_Some_2 spans n Hn) as [sp Hsp].
      rewrite Hsp, sent_starts_loop_acc, (IHok Hrest). reflexivity.
    + intros H. destruct (spans !! n) as [sp|] eqn:Hsp; [|reflexivity].
      apply Exists_cons in H as [Hn | Hrest].
      * apply lookup_lt_Some in Hsp. lia.
      * rewrite sent_starts_loop_acc, (IHerr Hrest). reflexivity.
Qed.

(** X5. The sentence boundaries are the span starts at the positions of
    the first tokens of the sentences.  They are computed when each of
    these positions has a span, whatever the number of spans after the
    last of them; when one has none the computation raises [IndexError]. *)
Theorem sent_starts_at_first_token_offsets (spans : list span)
    (context_sentences : list (list string)) :
  (Forall (fun off => (off < length spans)%nat)
     (first_token_offsets 0 context_sentences) ->
   compute_sent_starts spans context_sentences
   = Ok (List.map (fun off => match spans !! off with
                              | Some sp => sp.1
                              | None => 0
                              end)
           (first_token_offsets 0 context_sentences)))
  /\ (Exists (fun off => (length spans <= off)%nat)
        (first_token_offsets 0 context_sentences) ->
      compute_sent_starts spans context_sentences = Raise IndexError).
Proof. apply sent_starts_loop_offsets. Qed.

Lemma sent_starts_at_first_token_offsets_witness :
  compute_sent_starts [(0, 4); (5, 10); (11, 12); (13, 17)]
    [["Cats"; "sleep"; "."]; ["Dogs"; "run"; "."]] = Ok [0; 13]
  /\ compute_sent_starts [(0, 4); (5, 10); (11, 12)]
       [["Cats"; "sleep"; "."]; ["Dogs"; "run"; "."]] = Raise IndexError.
Proof.
  split.
  - apply (proj1 (sent_starts_at_first_token_offsets
                    [(0, 4); (5, 10); (11, 12); (13, 17)]
                    [["Cats"; "sleep"; "."]; ["Dogs"; "run"; "."]])).
    repeat constructor.
  - apply (proj2 (sent_starts_at_first_token_offsets
                    [(0, 4); (5, 10); (11, 12)]
                    [["Cats"; "sleep"; "."]; ["Dogs"; "run"; "."]])).
    right. left. simpl. lia.
Defined.

Lemma sent_starts_loop_length (spans : list span)
    (context_sentences : list (list string)) :
  forall (num_tokens : nat) (l : list Z),
  sent_starts_loop spans context_sentences num_tokens [] = Ok l ->
  length l = length context_sentences.
Proof.
  induction context_sentences as [|s rest IH]; intros n l H; simpl in H.
  - by injection H as <-.
  - destruct (spans !! n) as [sp|]; [|discriminate].
    rewrite sent_starts_loop_acc in H.
    destruct (sent_starts_loop spans rest (n + length s) []) as [l'|] eqn:Hl;
      [|discriminate].
    injection H as <-. simpl. f_equal. eapply IH; eauto.
Qed.

Lemma scan_sentences_in_range (a : Z) (sents : list (list string))
    (starts : list Z) :
  forall (idx : nat) (v : option (list string)),
  (idx + length starts <= length sents)%nat ->
  exists v', scan_sentences a sents idx starts v = Ok v'.
Proof.
  induction starts as [|st rest IH]; intros idx v Hlen; simpl; [eauto|].
  destruct (a >=? st); [|eauto].
  simpl in Hlen.
  destruct (lookup_lt_is_Some_2 sents idx ltac:(lia)) as [s Hs].
  rewrite Hs. apply IH. lia.
Qed.

(** X6. Boundaries computed from the sentences are as many as the
    sentences, so that the scan never indexes past them: with such
    boundaries the resolver returns a sentence or raises [Exception]
    ("Sentence cannot be found"), never [IndexError]. *)
Theorem resolve_on_computed_starts (spans : list span)
    (context_sentences : list (list string)) (sent_starts : list Z)
    (answer_start : Z) :
  compute_sent_starts spans context_sentences = Ok sent_starts ->
  length sent_starts = length context_sentences
  /\ ((exists t ts,
         resolve answer_start sent_starts context_sentences = Ok (t :: ts))
      \/ resolve answer_start sent_starts context_sentences
         = Raise Exception).
Proof.
  intros H. apply sent_starts_loop_length in H. split; [exact H|].
  unfold resolve.
  destruct (scan_sentences_in_range answer_start context_sentences
              sent_starts 0 (Some []) ltac:(lia)) as [v Hv].
  rewrite Hv.
  assert (v <> None) as Hsome.
  { intros ->. rewrite scan_sentences_var in Hv.
    destruct (scan_sentences answer_start context_sentences 0 sent_starts
                None) as [[s|]|]; discriminate. }
  destruct v as [[|t ts]|]; [right | left; eauto | done]. reflexivity.
Qed.

Lemma resolve_on_computed_starts_witness :
  length [0; 13] = length [["Cats"; "sleep"; "."]; ["Dogs"; "run"; "."]]
  /\ ((exists t ts,
         resolve (-1) [0; 13] [["Cats"; "sleep"; "."]; ["Dogs"; "run"; "."]]
         = Ok (t :: ts))
      \/ resolve (-1) [0; 13] [["Cats"; "sleep"; "."]; ["Dogs"; "run"; "."]]
         = Raise Exception).
Proof.
  apply (resolve_on_computed_starts
           [(0, 4); (5, 10); (11, 12); (13, 17); (18, 21); (22, 23)]).
  reflexivity.
Defined.

(** ** Runs of the NewsQA extractor *)

Lemma str_chars (s : string) : Py.str (Py.chars s) = s.
Proof. apply String.string_of_list_ascii_of_string. Qed.

Lemma str_app (a b : list ascii) : Py.str (a ++ b) = Py.str a +:+ Py.str b.
Proof.
  induction a as [|c a IH]; [reflexivity|].
  change (String c (Py.str (a ++ b)) = String c (Py.str a +:+ Py.str b)).
  f_equal. exact IH.
Qed.

Lemma last_char_Ok (s : string) (c : ascii) :
  Py.last_char s = Ok c -> exists body, s = body +:+ String c "".
Proof.
  unfold Py.last_char. intros H.
  destruct (rev (Py.chars s)) as [|c' l] eqn:Hrev; [discriminate|].
  injection H as ->. exists (Py.str (rev l)).
  rewrite <- (str_chars s), <- (rev_involutive (Py.chars s)), Hrev.
  simpl. by rewrite str_app.
Qed.

Section NewsQARun.

Import NewsQA.

Variable word_tokenize : string -> list string.
Variable sent_tokenize : string -> list (list string).
Variable convert_idx : string -> list string -> result (list span).

Local Abbreviation split_question :=
  (NewsQA.split_question word_tokenize sent_tokenize convert_idx).
Local Abbreviation split_articles :=
  (NewsQA.split_articles word_tokenize sent_tokenize convert_idx).
Local Abbreviation split_envs :=
  (NewsQA.split_envs word_tokenize sent_tokenize convert_idx).
Local Abbreviation split_data :=
  (NewsQA.split_data word_tokenize sent_tokenize convert_idx).

(** What one question does to the files. *)
Lemma split_question_cases (a : article) (qn : question) (st st' : state)
    (r : result unit) :
  split_question a qn st = (st', r) ->
  (out st' = out st /\ (r = Ok tt -> passes_filters qn = false))
  \/ (r = Ok tt /\ passes_filters qn = true /\
      Py.last_char (Py.strip (q qn)) = Ok "?"%char /\
      exists sent ans,
        out st' = write_triple (out st) sent (Py.strip (q qn)) ans).
Proof.
  unfold NewsQA.split_question, passes_filters.
  destruct (usable qn); [|intros H; injection H as <- <-; left; done].
  destruct (convert_idx _ _) as [spans|e];
    [|intros H; injection H as <- <-; left; done].
  destruct (compute_sent_starts _ _) as [starts|e];
    [|intros H; injection H as <- <-; left; done].
  destruct (Py.last_char _) as [c|e];
    [|intros H; injection H as <- <-; left; done].
  destruct (Ascii.eqb_spec c "?") as [->|Hc]; simpl;
    [|intros H; injection H as <- <-; left; done].
  destruct (consensus qn) as [[s e]|];
    [|intros H; injection H as <- <-; left; done].
  destruct (scan_sentences _ _ _ _ _) as [v|ex];
    [|intros H; injection H as <- <-; left; done].
  destruct (check_found v) as [tokens|ex]; intros H; injection H as <- <-.
  - right. repeat split. eauto.
  - left. done.
Qed.

(** An invariant of the files that the three [write] calls keep, for a
    question line that ends with a question mark, holds for the files of
    every split that a run has opened. *)
Lemma split_data_invariant (P : files -> Prop) :
  P no_files ->
  (forall f s q a,
     P f -> Py.last_char q = Ok "?"%char -> P (write_triple f s q a)) ->
  forall envs data v outs r,
  split_envs envs data v = (outs, r) -> Forall (fun o => P o.2) outs.
Proof.
  intros H0 Hw.
  assert (forall sub_dir data st st' r,
            P (out st) -> split_articles sub_dir data st = (st', r) ->
            P (out st')) as Hart.
  { intros sub_dir. apply (for_each_invariant (fun st => P (out st))).
    intros a st st' r HP H. unfold NewsQA.split_article in H.
    destruct (negb _); [by injection H as <- _|].
    revert st st' r HP H.
    apply (for_each_invariant (fun st => P (out st))).
    intros qn st st' r HP H.
    apply split_question_cases in H
      as [[-> _] | (_ & _ & Hq & s & a' & ->)]; auto. }
  induction envs as [|sub_dir rest IH]; intros data v outs r H; simpl in H.
  - injection H as <- _. constructor.
  - destruct (split_articles sub_dir data _) as [st [[]|e]] eqn:Hs.
    + destruct (split_envs rest data _) as [written r'] eqn:Hrest.
      injection H as <- _. constructor.
      * simpl. eapply Hart; [|exact Hs]. exact H0.
      * eapply IH; eauto.
    + injection H as <- _. repeat constructor.
      simpl. eapply Hart; [|exact Hs]. exact H0.
Qed.



(** X9. Articles whose type is neither ["train"] nor ["dev"] have no
    effect on a run: the outcome is that of the run without them. *)
Theorem newsqa_other_types_ignored (data : list article) :
  split_data data = split_data (List.filter in_a_split data).
Proof.
  unfold NewsQA.split_data.
  assert (forall sub_dir st,
            sub_dir = "train" \/ sub_dir = "dev" ->
            split_articles sub_dir data st
            = split_articles sub_dir (List.filter in_a_split data) st)
    as Hart.
  { intros sub_dir st Hsub. unfold NewsQA.split_articles.
    apply for_each_filter. intros a st0 Hkeep.
    unfold NewsQA.split_article, in_a_split in *.
    apply orb_false_iff in Hkeep as [Ht Hd].
    destruct Hsub as [-> | ->]; [rewrite Ht | rewrite Hd]; reflexivity. }
  generalize (@None (list string)). simpl. intros v.
  rewrite <- (Hart "train") by auto.
  destruct (split_articles "train" data _) as [st [[]|e]]; [|reflexivity].
  rewrite <- (Hart "dev") by auto. reflexivity.
Qed.

Lemma split_question_count (a : article) (qn : question) (st st' : state) :
  split_question a qn st = (st', Ok tt) ->
  length (question_file (out st'))
  = (length (question_file (out st))
     + if passes_filters qn then 1 else 0)%nat.
Proof.
  intros H. apply split_question_cases in H
    as [[-> Hp] | (_ & -> & _ & s & a' & ->)].
  - rewrite Hp by reflexivity. lia.
  - simpl. rewrite length_app. simpl. lia.
Qed.

Lemma split_articles_count (sub_dir : string) (data : list article)
    (st st' : state) :
  split_articles sub_dir data st = (st', Ok tt) ->
  length (question_file (out st'))
  = (length (question_file (out st))
     + length (List.filter (fun x => passes_filters x.2)
                 (questions_of sub_dir data)))%nat.
Proof.
  intros H. unfold questions_of. rewrite length_filter_flat_map.
  refine (for_each_sum (fun st => length (question_file (out st))) _ _
            _ _ _ _ H).
  intros a st0 st1 Ha. unfold NewsQA.split_article in Ha.
  destruct (String.eqb (type a) sub_dir); simpl in Ha.
  - rewrite (for_each_sum (fun st => length (question_file (out st)))
               (fun qn => if passes_filters qn then 1 else 0)%nat _
               (split_question_count a) _ _ _ Ha).
    f_equal. clear. induction (questions a) as [|qn l IH]; [reflexivity|].
    simpl. destruct (passes_filters qn); simpl; lia.
  - injection Ha as <-. simpl. lia.
Qed.


End NewsQARun.


(** ** The sentence line of the NewsQA extractor *)

Lemma chars_str (l : list ascii) : Py.chars (Py.str l) = l.
Proof. apply String.list_ascii_of_string_of_list_ascii. Qed.

Lemma lstrip_by_head (p : ascii -> bool) (l : list ascii) (c : ascii)
    (l' : list ascii) :
  Py.lstrip_by p l = c :: l' -> p c = false.
Proof.
  induction l as [|x l IH]; simpl; [discriminate|].
  destruct (p x) eqn:Hx; [exact IH|]. intros H. injection H as <- _.
  exact Hx.
Qed.

Lemma lstrip_by_suffix (p : ascii -> bool) (l : list ascii) :
  exists pre, l = pre ++ Py.lstrip_by p l.
Proof.
  induction l as [|x l [pre IH]]; simpl; [by exists []|].
  destruct (p x); [|by exists []].
  exists (x :: pre). simpl. by rewrite <- IH.
Qed.

Lemma lstrip_by_id (p : ascii -> bool) (l : list ascii) :
  (forall c l', l = c :: l' -> p c = false) -> Py.lstrip_by p l = l.
Proof.
  destruct l as [|x l]; [reflexivity|]. intros H. simpl.
  by rewrite (H x l eq_refl).
Qed.

(** What [strip] returns has no character to strip at either end. *)
Lemma strip_by_trimmed (p : ascii -> bool) (s : string) :
  trimmed p (Py.chars (Py.strip_by p s)).
Proof.
  unfold Py.strip_by. rewrite chars_str.
  set (l1 := Py.lstrip_by p (Py.chars s)).
  destruct (lstrip_by_suffix p (rev l1)) as [pre Hpre].
  split.
  - intros c l' H.
    assert (l1 = c :: l' ++ rev pre) as Hl1.
    { rewrite <- (rev_involutive l1), Hpre, rev_app_distr, H. reflexivity. }
    exact (lstrip_by_head p _ c _ Hl1).
  - intros c l' H. rewrite rev_involutive in H.
    exact (lstrip_by_head p _ c _ H).
Qed.

(** Text without a character to strip at either end is left as it is. *)
Lemma strip_by_id (p : ascii -> bool) (s : string) :
  trimmed p (Py.chars s) -> Py.strip_by p s = s.
Proof.
  intros [H1 H2]. unfold Py.strip_by.
  rewrite (lstrip_by_id p (Py.chars s) H1), (lstrip_by_id p _ H2).
  rewrite rev_involutive. apply str_chars.
Qed.

Lemma trimmed_app (p : ascii -> bool) (l1 mid l2 : list ascii) :
  l1 <> [] -> l2 <> [] -> trimmed p l1 -> trimmed p l2 ->
  trimmed p (l1 ++ mid ++ l2).
Proof.
  intros Hn1 Hn2 [H1 _] [_ H2]. split.
  - intros c l' H. destruct l1 as [|x l1]; [done|].
    injection H as -> _. by apply (H1 c l1).
  - intros c l' H. rewrite !rev_app_distr in H.
    destruct (rev l2) as [|x r2] eqn:Hr2.
    { apply (f_equal (@rev ascii)) in Hr2. rewrite rev_involutive in Hr2.
      done. }
    injection H as -> _. by apply (H2 c r2).
Qed.

Lemma join_trimmed (p : ascii -> bool) (l : list string) :
  l <> [] ->
  Forall (fun s => Py.chars s <> [] /\ trimmed p (Py.chars s)) l ->
  Py.chars (Py.join " " l) <> [] /\ trimmed p (Py.chars (Py.join " " l)).
Proof.
  intros Hne Hall. induction Hall as [|x l [Hx Htx] Hall IH]; [done|].
  destruct l as [|y l]; [by split|].
  destruct (IH ltac:(done)) as [Hj Htj].
  change (Py.join " " (x :: y :: l))
    with (x +:+ " " +:+ Py.join " " (y :: l)).
  rewrite !chars_append. split.
  - destruct (Py.chars x); [done | discriminate].
  - by apply trimmed_app.
Qed.

(** X11. The sentence text joined at line 184 has no white space at its
    ends: stripping it again changes nothing.  It is empty exactly when
    every token of the sentence is blank. *)
Theorem join_sentence_is_stripped (sentence_tokens : list string) :
  Py.strip (NewsQA.join_sentence sentence_tokens)
  = NewsQA.join_sentence sentence_tokens
  /\ (NewsQA.join_sentence sentence_tokens = ""
      <-> Forall (fun token => NewsQA.strip_token token = "")
            sentence_tokens).
Proof.
  unfold NewsQA.join_sentence.
  set (kept := List.map NewsQA.strip_token
                 (List.filter
                    (fun token =>
                       negb (String.eqb (NewsQA.strip_token token) ""))
                    sentence_tokens)).
  assert (Forall (fun s => Py.chars s <> []
                           /\ trimmed Py.isspace (Py.chars s)) kept)
    as Hkept.
  { unfold kept. apply Forall_forall. intros s Hs.
    apply list_elem_of_In, in_map_iff in Hs as (t & <- & Ht).
    apply filter_In in Ht as [_ Ht]. split.
    - intros Hc. apply (f_equal Py.str) in Hc. rewrite str_chars in Hc.
      simpl in Hc. rewrite Hc in Ht. discriminate.
    - apply strip_by_trimmed. }
  assert (kept = [] <-> Forall (fun token => NewsQA.strip_token token = "")
                          sentence_tokens) as Hnil.
  { unfold kept. clear. induction sentence_tokens as [|t l IH]; simpl.
    - split; [constructor | reflexivity].
    - destruct (String.eqb_spec (NewsQA.strip_token t) "") as [E|E]; simpl.
      + rewrite IH. split.
        * intros H. by constructor.
        * intros H. by apply Forall_cons in H as [_ H].
      + split; [discriminate|].
        intros H. apply Forall_cons in H as [H _]. contradiction. }
  destruct kept as [|x l] eqn:Hk.
  - split; [reflexivity|]. rewrite <- Hnil. done.
  - destruct (join_trimmed Py.isspace (x :: l) ltac:(done) Hkept)
      as [Hne Ht].
    split; [by apply strip_by_id|].
    rewrite <- Hnil. split; [|discriminate].
    intros E. rewrite E in Hne. done.
Qed.

Lemma join_sentence_is_stripped_witness :
  NewsQA.join_sentence [" "; newline] = "".
Proof.
  apply (proj2 (proj2 (join_sentence_is_stripped [" "; newline]))).
  repeat constructor.
Defined.

(** ** One call of the merger *)

Section Concatenate.

Import Merge.

Variable random : nat -> Z.

Lemma read_all_app (files : gmap string (list string))
    (l1 l2 : list string) :
  forall acc,
  read_all files (l1 ++ l2) acc
  = match read_all files l1 acc with
    | (acc', Ok _) => read_all files l2 acc'
    | (acc', Raise e) => (acc', Raise e)
    end.
Proof.
  induction l1 as [|fname l1 IH]; intros acc; simpl; [reflexivity|].
  destruct (files !! fname); [apply IH | reflexivity].
Qed.

Lemma read_all_opened (files : gmap string (list string))
    (filenames : list string) (out : string) (v : list string) :
  out ∉ filenames ->
  forall acc,
  read_all (<[out := v]> files) filenames acc = read_all files filenames acc.
Proof.
  induction filenames as [|fname rest IH]; intros Hout acc; simpl;
    [reflexivity|].
  apply not_elem_of_cons in Hout as [Hne Hrest].
  rewrite lookup_insert_ne by done.
  destruct (files !! fname); [by apply IH | reflexivity].
Qed.



End Concatenate.



(** ** Two files shuffled with the same keys *)

Section SameKeys.

Import Merge.

Variable random : nat -> Z.

Lemma draw_keys_zip (lines : list string) :
  forall n,
  draw_keys random n lines
  = zip (List.map random (seq n (length lines))) lines.
Proof.
  induction lines as [|line rest IH]; intros n; simpl; [reflexivity|].
  by rewrite IH.
Qed.

(** A line of each of two files under the key drawn for their position. *)
Local Abbreviation keyed2 := (Z * (string * string))%type.

Local Abbreviation left_line :=
  (fun x : keyed2 => (x.1, x.2.1)).
Local Abbreviation right_line :=
  (fun x : keyed2 => (x.1, x.2.2)).

Lemma zip3_projections (keys : list Z) (l1 l2 : list string) :
  length l1 = length keys -> length l2 = length keys ->
  left_line <$> zip keys (zip l1 l2) = zip keys l1
  /\ right_line <$> zip keys (zip l1 l2) = zip keys l2
  /\ (zip keys (zip l1 l2)).*1 = keys
  /\ (zip keys (zip l1 l2)).*2 = zip l1 l2.
Proof.
  revert l1 l2. induction keys as [|k keys IH]; intros [|a l1] [|b l2];
    simpl; try discriminate; intros H1 H2; [done|].
  destruct (IH l1 l2) as (E1 & E2 & E3 & E4); [lia | lia |].
  repeat split; f_equal; assumption.
Qed.

Lemma unzip_lines (l : list keyed2) :
  zip (left_line <$> l).*2 (right_line <$> l).*2 = l.*2.
Proof.
  induction l as [|[k [a b]] l IH]; simpl; [reflexivity|].
  f_equal. exact IH.
Qed.

(** With keys that differ, the order of the keys decides alone: a list in
    the order of the keyed lines of the first file is also in the order of
    the keyed lines of the second. *)
Lemma sorted_right_line (l : list keyed2) :
  Sorted (fun x y => keyed_le (left_line x) (left_line y)) l ->
  NoDup l.*1 ->
  Sorted keyed_le (right_line <$> l).
Proof.
  induction 1 as [|x l Hs IH Hhd]; intros Hnd; simpl; [constructor|].
  apply NoDup_cons in Hnd as [Hx Hnd]. constructor; [by apply IH|].
  destruct Hhd as [|y l Hxy]; simpl; constructor.
  assert (x.1 <> y.1) as Hne.
  { intros E. apply Hx. simpl. rewrite E. left. }
  unfold keyed_le, keyed_leb in *. simpl in *.
  apply orb_true_iff in Hxy as [Hlt | Heq].
  - by rewrite Hlt.
  - apply andb_true_iff in Heq as [Heq _]. lia.
Qed.

(** X14. Shuffling is decided by the keys alone when no two lines draw
    the same key: two files with the same number of lines that are
    shuffled with the same keys stay aligned, the pairs of lines at equal
    positions being the same before and after. *)
Theorem shuffle_same_keys_aligned (n : nat) (l1 l2 : list string) :
  length l1 = length l2 ->
  NoDup (List.map random (seq n (length l1))) ->
  zip (shuffle random n l1) (shuffle random n l2) ≡ₚ zip l1 l2.
Proof.
  intros Hlen Hnd.
  set (keys := List.map random (seq n (length l1))) in *.
  assert (length l1 = length keys) as Hk1
    by (unfold keys; by rewrite length_map, length_seq).
  assert (length l2 = length keys) as Hk2 by congruence.
  destruct (zip3_projections keys l1 l2 Hk1 Hk2) as (E1 & E2 & E3 & E4).
  set (R := fun x y : keyed2 => keyed_le (left_line x) (left_line y)).
  assert (Total R) as HR by (intros x y; apply keyed_le_total).
  pose (Hdec := (fun x y => keyed_le_dec (left_line x) (left_line y))
                : forall x y, Decision (R x y)).
  set (S := merge_sort R (zip keys (zip l1 l2))).
  assert (S ≡ₚ zip keys (zip l1 l2)) as HS
    by apply merge_sort_Permutation.
  assert (Sorted R S) as Hsorted by (apply Sorted_merge_sort; exact HR).
  assert ((left_line <$> S).*2 = shuffle random n l1) as H1.
  { apply shuffle_sorted.
    - rewrite HS, E1, draw_keys_zip. reflexivity.
    - apply (Sorted_fmap left_line R keyed_le); [done | exact Hsorted]. }
  assert ((right_line <$> S).*2 = shuffle random n l2) as H2.
  { apply shuffle_sorted.
    - rewrite HS, E2, draw_keys_zip, <- Hlen. reflexivity.
    - apply sorted_right_line; [exact Hsorted|].
      by rewrite HS, E3. }
  rewrite <- H1, <- H2, unzip_lines, HS, E4. reflexivity.
Qed.

End SameKeys.

Lemma shuffle_same_keys_aligned_witness :
  zip (Merge.shuffle Sample.random 0
         ["Cats sleep ." +:+ newline; "Dogs run ." +:+ newline])
      (Merge.shuffle Sample.random 0
         ["Who sleeps ?" +:+ newline; "Who runs ?" +:+ newline])
  ≡ₚ zip ["Cats sleep ." +:+ newline; "Dogs run ." +:+ newline]
         ["Who sleeps ?" +:+ newline; "Who runs ?" +:+ newline].
Proof.
  apply (shuffle_same_keys_aligned Sample.random 0).
  - reflexivity.
  - compute_done.
Defined.

(** ** The merge stage as a whole *)

Section MergeStage.

Import Merge.

Variable random : nat -> Z.
Variable squad_data_dir : string.
Variable newsqa_data_dir : string.
Variable out_dir : string.

Local Abbreviation inputs := (merge_inputs squad_data_dir newsqa_data_dir).
Local Abbreviation outputs := (merge_outputs out_dir).
Local Abbreviation merge_stage :=
  (Merge.merge_stage random squad_data_dir newsqa_data_dir out_dir).

Lemma and_then_Ok (step next : world -> world * result unit)
    (w w' : world) :
  step w = (w', Ok tt) -> and_then step next w = next w'.
Proof. intros H. unfold and_then. by rewrite H. Qed.

Lemma and_then_Raise (step next : world -> world * result unit)
    (w w' : world) (e : exn) :
  step w = (w', Raise e) -> and_then step next w = (w', Raise e).
Proof. intros H. unfold and_then. by rewrite H. Qed.

Lemma concatenate_data_two_missing (f1 f2 out : string) (w : world) :
  f1 <> out -> f2 <> out ->
  fs w !! f1 = None \/ fs w !! f2 = None ->
  exists w',
    concatenate_data random [f1; f2] out w = (w', Raise FileNotFoundError).
Proof.
  intros H1 H2 Hmiss. unfold concatenate_data. simpl.
  rewrite !lookup_insert_ne by congruence.
  destruct (fs w !! f1) as [a|]; [|eauto].
  destruct (fs w !! f2) as [b|]; [|eauto].
  destruct Hmiss; discriminate.
Qed.

(** No merged file is an input of the stage, and the merged files are
    four different files. *)
Lemma merge_paths_apart :
  Forall (fun p => p ∉ inputs) outputs ->
  (forall i o, i ∈ inputs -> o ∈ outputs -> i <> o)
  /\ (forall i o, i ∈ inputs -> o ∈ outputs ->
        forall (m : gmap string (list string)) v,
        <[o := v]> m !! i = m !! i).
Proof.
  intros Hdisj.
  assert (forall i o, i ∈ inputs -> o ∈ outputs -> i <> o) as Hne.
  { intros i o Hi Ho ->. rewrite Forall_forall in Hdisj.
    exact (Hdisj o Ho Hi). }
  split; [exact Hne|].
  intros i o Hi Ho m v. apply lookup_insert_ne.
  intros ->. exact (Hne i i Hi Ho eq_refl).
Qed.

(** The outcome of the stage when its eight inputs exist. *)
Lemma merge_stage_explicit (w : world)
    (a1 b1 a2 b2 a3 b3 a4 b4 : list string) :
  Forall (fun p => p ∉ inputs) outputs ->
  fs w !! Py.path_join squad_data_dir "train" "train.sentence" = Some a1 ->
  fs w !! Py.path_join newsqa_data_dir "train" "train.sentence" = Some b1 ->
  fs w !! Py.path_join squad_data_dir "train" "train.question" = Some a2 ->
  fs w !! Py.path_join newsqa_data_dir "train" "train.question" = Some b2 ->
  fs w !! Py.path_join squad_data_dir "dev" "dev.sentence" = Some a3 ->
  fs w !! Py.path_join newsqa_data_dir "dev" "dev.sentence" = Some b3 ->
  fs w !! Py.path_join squad_data_dir "dev" "dev.question" = Some a4 ->
  fs w !! Py.path_join newsqa_data_dir "dev" "dev.question" = Some b4 ->
  merge_stage w
  = (mk_world
       (<[Py.path_join out_dir "dev" "dev.question" :=
            shuffle random
              (drawn w + length (a1 ++ b1) + length (a2 ++ b2)
               + length (a3 ++ b3)) (a4 ++ b4)]>
          (<[Py.path_join out_dir "dev" "dev.sentence" :=
               shuffle random
                 (drawn w + length (a1 ++ b1) + length (a2 ++ b2))
                 (a3 ++ b3)]>
             (<[Py.path_join out_dir "train" "train.question" :=
                  shuffle random (drawn w + length (a1 ++ b1)) (a2 ++ b2)]>
                (<[Py.path_join out_dir "train" "train.sentence" :=
                     shuffle random (drawn w) (a1 ++ b1)]> (fs w)))))
       (drawn w + length (a1 ++ b1) + length (a2 ++ b2)
        + length (a3 ++ b3) + length (a4 ++ b4)),
     Ok tt).
Proof.
  intros Hdisj Ha1 Hb1 Ha2 Hb2 Ha3 Hb3 Ha4 Hb4.
  destruct (merge_paths_apart Hdisj) as [Hne Hkeep].
  unfold merge_inputs, merge_outputs in Hne, Hkeep.
  unfold Merge.merge_stage.
  erewrite and_then_Ok;
    [|apply concatenate_data_two;
      [apply Hne; set_solver | apply Hne; set_solver
      | eassumption | eassumption]].
  erewrite and_then_Ok;
    [|apply concatenate_data_two;
      [apply Hne; set_solver | apply Hne; set_solver
      | simpl; rewrite !Hkeep by set_solver; eassumption
      | simpl; rewrite !Hkeep by set_solver; eassumption]].
  erewrite and_then_Ok;
    [|apply concatenate_data_two;
      [apply Hne; set_solver | apply Hne; set_solver
      | simpl; rewrite !Hkeep by set_solver; eassumption
      | simpl; rewrite !Hkeep by set_solver; eassumption]].
  erewrite concatenate_data_two;
    [reflexivity | apply Hne; set_solver | apply Hne; set_solver
    | simpl; rewrite !Hkeep by set_solver; eassumption
    | simpl; rewrite !Hkeep by set_solver; eassumption].
Qed.

(** The four merged files are different files. *)
Lemma merge_outputs_differ :
  Py.path_join out_dir "train" "train.sentence"
  <> Py.path_join out_dir "train" "train.question"
  /\ Py.path_join out_dir "train" "train.sentence"
     <> Py.path_join out_dir "dev" "dev.sentence"
  /\ Py.path_join out_dir "train" "train.sentence"
     <> Py.path_join out_dir "dev" "dev.question"
  /\ Py.path_join out_dir "train" "train.question"
     <> Py.path_join out_dir "dev" "dev.sentence"
  /\ Py.path_join out_dir "train" "train.question"
     <> Py.path_join out_dir "dev" "dev.question"
  /\ Py.path_join out_dir "dev" "dev.sentence"
     <> Py.path_join out_dir "dev" "dev.question".
Proof.
  pose proof (merge_outputs_NoDup out_dir) as Hnd.
  unfold merge_outputs in Hnd.
  rewrite !NoDup_cons, !not_elem_of_cons in Hnd. tauto.
Qed.



(** X17. When one of the eight corpus files that the stage reads does not
    exist, the stage ends with [FileNotFoundError]. *)
Theorem merge_stage_missing_input (w : world) :
  Forall (fun p => p ∉ inputs) outputs ->
  Exists (fun p => fs w !! p = None) inputs ->
  exists w', merge_stage w = (w', Raise FileNotFoundError).
Proof.
  intros Hdisj Hex.
  destruct (merge_paths_apart Hdisj) as [Hne Hkeep].
  unfold merge_inputs, merge_outputs in Hne, Hkeep, Hex.
  unfold Merge.merge_stage.
  set (i1 := Py.path_join squad_data_dir "train" "train.sentence") in *.
  set (i2 := Py.path_join newsqa_data_dir "train" "train.sentence") in *.
  set (i3 := Py.path_join squad_data_dir "train" "train.question") in *.
  set (i4 := Py.path_join newsqa_data_dir "train" "train.question") in *.
  set (i5 := Py.path_join squad_data_dir "dev" "dev.sentence") in *.
  set (i6 := Py.path_join newsqa_data_dir "dev" "dev.sentence") in *.
  set (i7 := Py.path_join squad_data_dir "dev" "dev.question") in *.
  set (i8 := Py.path_join newsqa_data_dir "dev" "dev.question") in *.
  set (o1 := Py.path_join out_dir "train" "train.sentence") in *.
  set (o2 := Py.path_join out_dir "train" "train.question") in *.
  set (o3 := Py.path_join out_dir "dev" "dev.sentence") in *.
  set (o4 := Py.path_join out_dir "dev" "dev.question") in *.
  assert (forall f1 f2 o w0 next,
            f1 ∈ [i1; i2; i3; i4; i5; i6; i7; i8] ->
            f2 ∈ [i1; i2; i3; i4; i5; i6; i7; i8] ->
            o ∈ [o1; o2; o3; o4] ->
            fs w0 !! f1 = None \/ fs w0 !! f2 = None ->
            exists w',
              and_then (concatenate_data random [f1; f2] o) next w0
              = (w', Raise FileNotFoundError)) as Hraise.
  { intros f1 f2 o w0 next H1 H2 Ho Hmiss.
    destruct (concatenate_data_two_missing f1 f2 o w0)
      as [w' Hw']; [by apply Hne | by apply Hne | exact Hmiss |].
    exists w'. by apply and_then_Raise. }
  assert (forall f1 f2 o w0 a b,
            f1 ∈ [i1; i2; i3; i4; i5; i6; i7; i8] ->
            f2 ∈ [i1; i2; i3; i4; i5; i6; i7; i8] ->
            o ∈ [o1; o2; o3; o4] ->
            fs w0 !! f1 = Some a -> fs w0 !! f2 = Some b ->
            exists w1,
              concatenate_data random [f1; f2] o w0 = (w1, Ok tt)
              /\ forall i, i ∈ [i1; i2; i3; i4; i5; i6; i7; i8] ->
                           fs w1 !! i = fs w0 !! i) as Hstep.
  { intros f1 f2 o w0 a b H1 H2 Ho Ha Hb. eexists. split.
    - apply concatenate_data_two; [by apply Hne | by apply Hne | eauto..].
    - intros i Hi. simpl. by apply Hkeep. }
  assert (i1 ∈ [i1; i2; i3; i4; i5; i6; i7; i8]) as I1
    by (apply list_elem_of_In; simpl; tauto).
  assert (i2 ∈ [i1; i2; i3; i4; i5; i6; i7; i8]) as I2
    by (apply list_elem_of_In; simpl; tauto).
  assert (i3 ∈ [i1; i2; i3; i4; i5; i6; i7; i8]) as I3
    by (apply list_elem_of_In; simpl; tauto).
  assert (i4 ∈ [i1; i2; i3; i4; i5; i6; i7; i8]) as I4
    by (apply list_elem_of_In; simpl; tauto).
  assert (i5 ∈ [i1; i2; i3; i4; i5; i6; i7; i8]) as I5
    by (apply list_elem_of_In; simpl; tauto).
  assert (i6 ∈ [i1; i2; i3; i4; i5; i6; i7; i8]) as I6
    by (apply list_elem_of_In; simpl; tauto).
  assert (i7 ∈ [i1; i2; i3; i4; i5; i6; i7; i8]) as I7
    by (apply list_elem_of_In; simpl; tauto).
  assert (i8 ∈ [i1; i2; i3; i4; i5; i6; i7; i8]) as I8
    by (apply list_elem_of_In; simpl; tauto).
  assert (o1 ∈ [o1; o2; o3; o4]) as O1
    by (apply list_elem_of_In; simpl; tauto).
  assert (o2 ∈ [o1; o2; o3; o4]) as O2
    by (apply list_elem_of_In; simpl; tauto).
  assert (o3 ∈ [o1; o2; o3; o4]) as O3
    by (apply list_elem_of_In; simpl; tauto).
  assert (o4 ∈ [o1; o2; o3; o4]) as O4
    by (apply list_elem_of_In; simpl; tauto).
  destruct (fs w !! i1) as [a1|] eqn:Ha1; [|apply Hraise; auto].
  destruct (fs w !! i2) as [b1|] eqn:Hb1; [|apply Hraise; auto].
  destruct (Hstep i1 i2 o1 w a1 b1 I1 I2 O1 Ha1 Hb1) as (w1 & E1 & K1).
  rewrite (and_then_Ok _ _ w w1 E1).
  destruct (fs w !! i3) as [a2|] eqn:Ha2;
    [|apply Hraise; auto; left; by rewrite K1].
  destruct (fs w !! i4) as [b2|] eqn:Hb2;
    [|apply Hraise; auto; right; by rewrite K1].
  destruct (Hstep i3 i4 o2 w1 a2 b2 I3 I4 O2) as (w2 & E2 & K2);
    [by rewrite K1 | by rewrite K1 |].
  rewrite (and_then_Ok _ _ w1 w2 E2).
  destruct (fs w !! i5) as [a3|] eqn:Ha3;
    [|apply Hraise; auto; left; by rewrite K2, K1].
  destruct (fs w !! i6) as [b3|] eqn:Hb3;
    [|apply Hraise; auto; right; by rewrite K2, K1].
  destruct (Hstep i5 i6 o3 w2 a3 b3 I5 I6 O3) as (w3 & E3 & K3);
    [by rewrite K2, K1 | by rewrite K2, K1 |].
  rewrite (and_then_Ok _ _ w2 w3 E3).
  destruct (fs w !! i7) as [a4|] eqn:Ha4.
  2: { apply (concatenate_data_two_missing i7 i8 o4 w3);
         [by apply Hne | by apply Hne | left; by rewrite K3, K2, K1]. }
  destruct (fs w !! i8) as [b4|] eqn:Hb4.
  2: { apply (concatenate_data_two_missing i7 i8 o4 w3);
         [by apply Hne | by apply Hne | right; by rewrite K3, K2, K1]. }
  exfalso. rewrite !Exists_cons, Exists_nil in Hex.
  destruct Hex as [?|[?|[?|[?|[?|[?|[?|[?|[]]]]]]]]]; congruence.
Qed.

End MergeStage.



Lemma merge_stage_missing_input_witness :
  exists w',
    Merge.merge_stage Sample.random "squad" "newsqa" "out"
      (Merge.mk_world (delete "newsqa/dev/dev.sentence" Sample.corpora) 0)
    = (w', Raise FileNotFoundError).
Proof.
  apply (merge_stage_missing_input Sample.random "squad" "newsqa" "out").
  - compute_done.
  - apply Exists_exists. exists "newsqa/dev/dev.sentence". split.
    + compute_done.
    + vm_compute. reflexivity.
Defined.

(** ** Downloading and unpacking *)

Lemma dir_prefix_nonempty (d : string) : d <> "" -> dir_prefix d <> "".
Proof.
  intros Hd. unfold dir_prefix.
  destruct (rev (Py.chars d)) as [|c l] eqn:Hrev.
  - apply (f_equal (@rev ascii)) in Hrev. rewrite rev_involutive in Hrev.
    apply (f_equal Py.str) in Hrev. rewrite str_chars in Hrev. done.
  - destruct (Ascii.eqb c "/"); [exact Hd|].
    destruct d; [done | discriminate].
Qed.

Lemma path_join2_not_second (d a : string) :
  d <> "" -> String.prefix "/" a = false -> Py.path_join2 d a <> a.
Proof.
  intros Hd Ha E. rewrite (path_join2_dir d a Ha) in E.
  apply (f_equal String.length) in E. rewrite length_append in E.
  pose proof (dir_prefix_nonempty d Hd) as Hne.
  destruct (dir_prefix d); [done | simpl in E; lia].
Qed.

(** X18. The archive that is unpacked is not the file that was saved: a
    name that ends with [".zip"] is saved as [out_dir/filename], which is
    another path than [filename] when the directory is not empty and the
    name is relative, and the last operation unpacks the file [filename]
    of the working directory.  No archive in [".tar.gz"] or [".tgz"] is
    unpacked for such a name. *)
Theorem unpacks_filename_not_save_path (exists_ : string -> bool)
    (url filename out_dir : string) :
  out_dir <> "" -> String.prefix "/" filename = false ->
  Download.endswith filename ".zip" = true ->
  exists ops,
    Download.maybe_download_squad exists_ url filename out_dir
    = ops ++ [Download.ZipExtractall filename out_dir]
    /\ (forall u p, Download.Urlretrieve u p ∈ ops ->
                    p = Py.path_join2 out_dir filename /\ p <> filename)
    /\ (forall name path, Download.TarExtractall name path ∉ ops)
    /\ (exists_ (Py.path_join2 out_dir filename) = true -> ops = []).
Proof.
  intros Hd Hrel Hzip. unfold Download.maybe_download_squad. rewrite Hzip.
  eexists. split; [reflexivity|].
  pose proof (path_join2_not_second out_dir filename Hd Hrel) as Hne.
  destruct (exists_ (Py.path_join2 out_dir filename)); simpl.
  - split; [|split; [|reflexivity]].
    + intros u p H. inversion H.
    + intros name path H. inversion H.
  - split; [|split; [|discriminate]].
    + intros u p H. apply elem_of_app in H as [H | H].
      * destruct (exists_ out_dir); simpl in H;
          [inversion H | apply list_elem_of_singleton in H; discriminate].
      * apply list_elem_of_singleton in H. injection H as _ ->. done.
    + intros name path H. apply elem_of_app in H as [H | H].
      * destruct (exists_ out_dir); simpl in H;
          [inversion H | apply list_elem_of_singleton in H; discriminate].
      * apply list_elem_of_singleton in H. discriminate.
Qed.

Lemma unpacks_filename_not_save_path_witness :
  exists ops,
    Download.maybe_download_squad (fun _ => false)
      "https://rajpurkar.github.io/SQuAD-explorer/dataset" "squad.zip" "data"
    = ops ++ [Download.ZipExtractall "squad.zip" "data"]
    /\ (forall u p, Download.Urlretrieve u p ∈ ops ->
                    p = Py.path_join2 "data" "squad.zip" /\ p <> "squad.zip")
    /\ (forall name path, Download.TarExtractall name path ∉ ops)
    /\ ((fun _ : string => false) (Py.path_join2 "data" "squad.zip") = true ->
        ops = []).
Proof.
  apply (unpacks_filename_not_save_path (fun _ => false)
           "https://rajpurkar.github.io/SQuAD-explorer/dataset"
           "squad.zip" "data");
    [discriminate | reflexivity | reflexivity].
Defined.

Example maybe_download_squad_ex :
  Download.maybe_download_squad (fun _ => false)
    "https://rajpurkar.github.io/SQuAD-explorer/dataset" "train-v2.0.json"
    "data/squad"
  = [Download.Makedirs "data/squad";
     Download.Urlretrieve
       "https://rajpurkar.github.io/SQuAD-explorer/dataset/train-v2.0.json"
       "data/squad/train-v2.0.json"].
Proof. reflexivity. Qed.
